(** * snapdom: asset resolution, plugin hooks and capture orchestration

    A shallow embedding of the JavaScript sources

      - [utils] image helper ([inlineSingleBackgroundEntry], [fetchImage]),
      - [core/plugins.js] ([use], [normalizePlugins], [runHook]),
      - [core/capture.js] ([captureDOM], [getBaseCSS], [buildSVGDataURL]),

    followed by the properties established about them.

    Conventions of the embedding.
    - JavaScript values are the inductive [value]; plain objects are finite
      maps from property names to values, arrays are lists.
    - A string is the sequence of the bytes of its UTF-8 encoding: an ASCII
      character is one byte, and the two line terminators outside ASCII,
      U+2028 and U+2029, are the three bytes 226 128 168 and 226 128 169.
      Only [spread] and [iterate] take a string apart, byte by byte: that is
      character by character on ASCII strings.
    - Module-level mutable state (the resource cache, the plugin registry) and
      the one piece of the document the code inspects (the element with id
      [snapdom-sandbox]) form the record [world].
    - An [async] function is a computation [Js A]: from a world it yields the
      value or the error its promise settles with, the world at that moment,
      and the observable events it emitted on the way.
    - The browser (network, image decoding, URL parsing), the helpers imported
      from files outside this development and the collaborators of the capture
      pipeline are fields of the record [env]. *)

From Stdlib Require Import ZArith String Ascii List Bool Lia.
From stdpp Require Import base tactics option list strings gmap pretty
  sorting.

Set Warnings "-register-all".
Local Open Scope string_scope.
Local Open Scope list_scope.

(* ===================================================================== *)
(** ** JavaScript values *)
(* ===================================================================== *)

(** Identity of a function value; what calling it does is given by [env]. *)
Definition fn_id := nat.

(** Numbers are integers here: the sources only compare and copy them. *)
Inductive value : Type :=
  | VUndefined
  | VNull
  | VBool (b : bool)
  | VNum (n : Z)
  | VStr (s : string)
  | VFun (f : fn_id)
  | VArr (l : list value)
  | VObj (o : gmap string value).

(** [ToBoolean]. *)
Definition truthy (v : value) : bool :=
  match v with
  | VUndefined | VNull => false
  | VBool b => b
  | VNum n => negb (n =? 0)%Z
  | VStr s => negb (String.eqb s "")
  | VFun _ | VArr _ | VObj _ => true
  end.

(** The [typeof] operator. *)
Definition typeof (v : value) : string :=
  match v with
  | VUndefined => "undefined"
  | VNull => "object"
  | VBool _ => "boolean"
  | VNum _ => "number"
  | VStr _ => "string"
  | VFun _ => "function"
  | VArr _ | VObj _ => "object"
  end.

(** [v?.k] and, on a value known not to be nullish, [v.k] / [v[k]]: own data
    properties of plain objects; everything else reads as [undefined].
    Properties inherited from a prototype ([hasOwnProperty], [toString], the
    methods of arrays and strings, ...) and properties of function values are
    not part of this embedding: [prop] is the property read of the source for
    the keys no prototype defines, on the values above. The keys the sources
    read by name ([name], [options], [plugins], [debug], [fast], ...) and the
    hook names of [recognized_hook] are such keys. *)
Definition prop (v : value) (k : string) : value :=
  match v with
  | VObj o => default VUndefined (o !! k)
  | _ => VUndefined
  end.

Definition nullish (v : value) : bool :=
  match v with
  | VUndefined | VNull => true
  | _ => false
  end.

(** Own enumerable properties copied by an object spread [{...v}]. *)
Definition spread (v : value) : gmap string value :=
  match v with
  | VObj o => o
  | VArr l => list_to_map (imap (fun i x => (pretty i, x)) l)
  | VStr s =>
      list_to_map
        (imap (fun i c => (pretty i, VStr (String c EmptyString)))
              (list_ascii_of_string s))
  | _ => ∅
  end.

(** [SameValueZero], the key equality of a [Map]. Objects, arrays and
    functions carry no identity in this embedding, so as keys they never
    match. *)
Definition same_value_zero (a b : value) : bool :=
  match a, b with
  | VUndefined, VUndefined => true
  | VNull, VNull => true
  | VBool x, VBool y => Bool.eqb x y
  | VNum x, VNum y => (x =? y)%Z
  | VStr x, VStr y => String.eqb x y
  | _, _ => false
  end.

(** A [Map] with arbitrary keys, in insertion order. *)
Definition jsmap := list (value * value).

Fixpoint map_get (m : jsmap) (k : value) : option value :=
  match m with
  | [] => None
  | (k', v) :: m' => if same_value_zero k' k then Some v else map_get m' k
  end.

Definition map_has (m : jsmap) (k : value) : bool :=
  match map_get m k with Some _ => true | None => false end.

Fixpoint map_set (m : jsmap) (k v : value) : jsmap :=
  match m with
  | [] => [(k, v)]
  | (k', v') :: m' =>
      if same_value_zero k' k then (k', v) :: m' else (k', v') :: map_set m' k v
  end.

(* ===================================================================== *)
(** ** Strings *)
(* ===================================================================== *)

Definition dquote : string := String "034"%char EmptyString.

Definition lower_ascii (c : ascii) : ascii :=
  let n := nat_of_ascii c in
  if (65 <=? n)%nat && (n <=? 90)%nat then ascii_of_nat (n + 32) else c.

Fixpoint lower (s : string) : string :=
  match s with
  | EmptyString => EmptyString
  | String c s' => String (lower_ascii c) (lower s')
  end.

Fixpoint drop_chars (n : nat) (s : string) : string :=
  match n, s with
  | O, _ => s
  | S n', String _ s' => drop_chars n' s'
  | S _, EmptyString => EmptyString
  end.

(** U+2028 (line separator) and U+2029 (paragraph separator), in UTF-8. *)
Definition line_separator : string :=
  String "226"%char (String "128"%char (String "168"%char EmptyString)).

Definition paragraph_separator : string :=
  String "226"%char (String "128"%char (String "169"%char EmptyString)).

(** No line terminator: what a dot-star can match up to the end of the
    input. The dot of a pattern refuses the four line terminators: line feed,
    carriage return, U+2028 and U+2029. *)
Fixpoint no_line_break (s : string) : bool :=
  match s with
  | EmptyString => true
  | String c s' =>
      negb (Ascii.eqb c "010"%char) && negb (Ascii.eqb c "013"%char)
      && negb (String.prefix line_separator s)
      && negb (String.prefix paragraph_separator s)
      && no_line_break s'
  end.

(** What may follow [.svg]: nothing, or a query string up to the end of
    the input. *)
Definition svg_tail (t : string) : bool :=
  match t with
  | EmptyString => true
  | String c t' => Ascii.eqb c "?"%char && no_line_break t'
  end.

(** The vector-image pattern (the extension [.svg], then an optional query
    string, then the end of the input) somewhere in an already lower-cased
    string. *)
Fixpoint svg_match (s : string) : bool :=
  match s with
  | EmptyString => false
  | String _ s' =>
      (String.prefix ".svg" s && svg_tail (drop_chars 4 s)) || svg_match s'
  end.

(** The case-insensitive test of that pattern on [src]. *)
Definition isSVG (src : string) : bool := svg_match (lower src).

(** [/^((repeating-)?(linear|radial|conic)-gradient)\(/i.test(entry)]. *)
Definition isGradient (entry : string) : bool :=
  let e := lower entry in
  existsb (fun p => String.prefix p e)
    [ "linear-gradient("; "radial-gradient("; "conic-gradient(";
      "repeating-linear-gradient("; "repeating-radial-gradient(";
      "repeating-conic-gradient(" ].

(** Replacing the pattern [/\/$/] by the empty string: one trailing slash
    is dropped. *)
Fixpoint strip_trailing_slash (s : string) : string :=
  match s with
  | EmptyString => EmptyString
  | String c s' =>
      match s' with
      | EmptyString => if Ascii.eqb c "/"%char then EmptyString else s
      | String _ _ => String c (strip_trailing_slash s')
      end
  end.

(** [src.startsWith] of the embedded-image prefix. *)
Definition isDataURI (src : string) : bool := String.prefix "data:image/" src.

(* ===================================================================== *)
(** ** Outcomes, the world, events *)
(* ===================================================================== *)

(** What can be thrown: an [Error] built by the sources with its message, a
    [TypeError] of the language (reading a property of [null], iterating a
    value that is not iterable), or an exception raised by the environment,
    opaque to the sources. *)
Inductive error : Type :=
  | Error (msg : string)
  | TypeError (what : string)
  | Foreign (n : nat).

Inductive outcome (A : Type) : Type :=
  | Ok (a : A)
  | Throw (e : error).
Arguments Ok {A} a.
Arguments Throw {A} e.

(** A DOM node, by handle. *)
Definition node := nat.

(** Modelled from the spec: the resource cache module [core/cache.js] is not
    among the sources. Section 4.1 gives it three independent keyed
    namespaces ([image], [background], [baseStyle]) with [has], [get] and
    [set], and a reset that clears all of them. The plugin registry is the
    module-level [Map] of [core/plugins.js]. [sandbox] is the element with id
    [snapdom-sandbox] when the document has one, given by the value of its
    [style.position]. *)
Record world : Type := World {
  cache_image : gmap string string;
  cache_background : gmap string string;
  cache_baseStyle : gmap string string;
  pluginRegistry : jsmap;
  sandbox : option string;
}.

Definition set_cache_image (f : gmap string string -> gmap string string)
    (w : world) : world :=
  World (f (cache_image w)) (cache_background w) (cache_baseStyle w)
        (pluginRegistry w) (sandbox w).

Definition set_cache_background (f : gmap string string -> gmap string string)
    (w : world) : world :=
  World (cache_image w) (f (cache_background w)) (cache_baseStyle w)
        (pluginRegistry w) (sandbox w).

Definition set_cache_baseStyle (f : gmap string string -> gmap string string)
    (w : world) : world :=
  World (cache_image w) (cache_background w) (f (cache_baseStyle w))
        (pluginRegistry w) (sandbox w).

Definition set_pluginRegistry (f : jsmap -> jsmap) (w : world) : world :=
  World (cache_image w) (cache_background w) (cache_baseStyle w)
        (f (pluginRegistry w)) (sandbox w).

Definition set_sandbox (s : option string) (w : world) : world :=
  World (cache_image w) (cache_background w) (cache_baseStyle w)
        (pluginRegistry w) s.

Inductive cache_ns : Type := NsImage | NsBackground | NsBaseStyle.

Definition namespace_of (ns : cache_ns) (w : world) : gmap string string :=
  match ns with
  | NsImage => cache_image w
  | NsBackground => cache_background w
  | NsBaseStyle => cache_baseStyle w
  end.

Definition set_namespace (ns : cache_ns)
    (f : gmap string string -> gmap string string) : world -> world :=
  match ns with
  | NsImage => set_cache_image f
  | NsBackground => set_cache_background f
  | NsBaseStyle => set_cache_baseStyle f
  end.

Inductive credentials : Type := Include | Omit.
Inductive cors_mode : Type := UseCredentials | Anonymous.
Inductive body_kind : Type := AsBlob | AsText.

(** The collaborators [captureDOM] calls, in the order of its body. *)
Inductive stage : Type :=
  | StPrepareClone
  | StInlineImages
  | StInlineBackgroundImages
  | StEmbedCustomFonts
  | StGenerateBaseCSS
  | StBuildSVG.

(** What an observer of a run can see. *)
Inductive event : Type :=
  | EvFetch (url : string) (c : credentials) (k : body_kind)
  | EvImageLoad (src : string) (m : cors_mode)
  | EvDecode (src : string)
  | EvTimerSet (ms : N)
  | EvTimerClear
  | EvTimerFire
  | EvCacheHas (ns : cache_ns) (key : string)
  | EvCacheGet (ns : cache_ns) (key : string)
  | EvCacheSet (ns : cache_ns) (key : string) (v : string)
  | EvCacheReset
  | EvConsole (level : string) (msg : string)
  | EvHookStart (f : fn_id) (ctx : gmap string value)
  | EvHookEnd (f : fn_id) (ctx : gmap string value)
  | EvStage (s : stage)
  | EvSandboxRemove.

(** Network and decoding work. *)
Definition is_io (e : event) : bool :=
  match e with
  | EvFetch _ _ _ | EvImageLoad _ _ | EvDecode _ => true
  | _ => false
  end.

(** An access, read or write, to one namespace of the cache. *)
Definition touches (ns : cache_ns) (e : event) : bool :=
  match e, ns with
  | EvCacheHas NsImage _, NsImage
  | EvCacheGet NsImage _, NsImage
  | EvCacheSet NsImage _ _, NsImage => true
  | EvCacheHas NsBackground _, NsBackground
  | EvCacheGet NsBackground _, NsBackground
  | EvCacheSet NsBackground _ _, NsBackground => true
  | EvCacheHas NsBaseStyle _, NsBaseStyle
  | EvCacheGet NsBaseStyle _, NsBaseStyle
  | EvCacheSet NsBaseStyle _ _, NsBaseStyle => true
  | EvCacheReset, _ => true
  | _, _ => false
  end.

Definition is_hook_event (e : event) : bool :=
  match e with
  | EvHookStart _ _ | EvHookEnd _ _ => true
  | _ => false
  end.

(* ===================================================================== *)
(** ** Computations *)
(* ===================================================================== *)

(** The run of an awaited [async] function (or of a synchronous one): the
    outcome, the world when it settles and the events emitted until then. *)
Definition Js (A : Type) : Type := world -> outcome A * world * list event.

Definition ret {A : Type} (a : A) : Js A := fun w => (Ok a, w, []).

Definition throw {A : Type} (e : error) : Js A := fun w => (Throw e, w, []).

Definition bind {A B : Type} (m : Js A) (k : A -> Js B) : Js B :=
  fun w =>
    match m w with
    | (Ok a, w1, ev1) =>
        match k a w1 with
        | (r, w2, ev2) => (r, w2, ev1 ++ ev2)
        end
    | (Throw e, w1, ev1) => (Throw e, w1, ev1)
    end.

(** [try { m } catch (e) { h e }]. *)
Definition try_catch {A : Type} (m : Js A) (h : error -> Js A) : Js A :=
  fun w =>
    match m w with
    | (Ok a, w1, ev1) => (Ok a, w1, ev1)
    | (Throw e, w1, ev1) =>
        match h e w1 with
        | (r, w2, ev2) => (r, w2, ev1 ++ ev2)
        end
    end.

Definition emit (e : event) : Js unit := fun w => (Ok tt, w, [e]).

(** A call into the environment: it acts on the world and emits nothing
    of its own. *)
Definition foreign {A : Type} (f : world -> outcome A * world) : Js A :=
  fun w => let '(r, w') := f w in (r, w', []).

Declare Scope js_scope.
Delimit Scope js_scope with js.
Notation "'let!' x ':=' m 'in' k" := (bind m (fun x => k))
  (at level 10, x pattern, m at level 100, k at level 200) : js_scope.
Notation "m ';;' k" := (bind m (fun _ => k))
  (at level 100, k at level 200, right associativity) : js_scope.
Local Open Scope js_scope.

(** [v.k] where [v] may be nullish: reading a property of [null] or
    [undefined] throws. *)
Definition member (v : value) (k : string) : Js value :=
  if nullish v then throw (TypeError ("Cannot read properties: " +:+ k))
  else ret (prop v k).

(** [cache.<ns>.has(key)], [cache.<ns>.get(key)], [cache.<ns>.set(key, v)]. *)
Definition cache_has (ns : cache_ns) (key : string) : Js bool :=
  fun w => (Ok (bool_decide (is_Some (namespace_of ns w !! key))), w,
            [EvCacheHas ns key]).

Definition cache_get (ns : cache_ns) (key : string) : Js (option string) :=
  fun w => (Ok (namespace_of ns w !! key), w, [EvCacheGet ns key]).

Definition cache_set (ns : cache_ns) (key v : string) : Js unit :=
  fun w => (Ok tt, set_namespace ns (fun m => <[key := v]> m) w,
            [EvCacheSet ns key v]).

(** [cache.reset()]. *)
Definition cache_reset : Js unit :=
  fun w => (Ok tt,
            World ∅ ∅ ∅ (pluginRegistry w) (sandbox w),
            [EvCacheReset]).

(* ===================================================================== *)
(** ** The environment *)
(* ===================================================================== *)

(** What [fetch(url).then(r => r.blob())] followed by a [FileReader] yields:
    the fetch or the body read rejects; the reader fires [error]; or the
    reader fires [loadend] with its [result] (a string, or [null]). *)
Inductive blob_outcome : Type :=
  | BlobRejected (e : error)
  | ReaderError
  | ReaderDone (result : option string).

(** The signal an image element fires after [image.src = src]. *)
Inductive signal : Type := SigLoad | SigError.

(** Parameters [buildSVGDataURL] receives besides the two nodes. *)
Record svg_params : Type := SvgParams {
  classCSS : value;
  fontsCSS : value;
  baseCSS : value;
  scale : value;
  width : value;
  height : value;
  fast : value;
}.

(** - [extractURL], [safeEncodeURI]: helpers of [utils/helpers.js], which is
      not among the sources; [extractURL] yields [None] for [null].
    - [location_origin], [url_origin]: [window.location.origin] and the
      origin of [new URL(url, window.location.href)], [None] when the
      constructor throws.
    - [net_blob], [net_text]: the network, per address and credentials mode;
      requests to one address answer alike within a run.
    - [encodeURIComponent]: [None] when it throws.
    - [image_signal]: which of [load] and [error] the image element fires and
      how many milliseconds after the assignment of [src]; [None] when
      neither ever fires.
    - [rasterize]: [image.decode()] then the drawing on a canvas and
      [toDataURL("image/png")]; [None] when one of them throws.
    - [call_fn]: what calling a function value on the shared context object
      does, to the fields of that object and to the world.
    - the last seven are the collaborators of [captureDOM]; [svgDocument] is
      the DOM work in the body of [buildSVGDataURL] (layout query, scaling,
      serialisation). *)
Record env : Type := Env {
  extractURL : string -> option string;
  safeEncodeURI : string -> string;
  location_origin : string;
  url_origin : string -> option string;
  net_blob : string -> credentials -> blob_outcome;
  net_text : string -> credentials -> outcome string;
  encodeURIComponent : string -> option string;
  image_signal : string -> option (signal * N);
  rasterize : string -> option string;
  call_fn : fn_id -> gmap string value -> world ->
            outcome (gmap string value) * world;
  prepareClone : node -> value -> world -> outcome (node * value) * world;
  inlineImages : node -> value -> world -> outcome unit * world;
  inlineBackgroundImages : node -> node -> value -> world ->
                           outcome unit * world;
  embedCustomFonts : world -> outcome value * world;
  collectUsedTagNames : node -> list string;
  generateDedupedBaseCSS : list string -> world -> outcome string * world;
  svgDocument : node -> node -> svg_params -> world -> outcome string * world;
}.

(* ===================================================================== *)
(** ** The image resolver: [fetchImage] *)
(* ===================================================================== *)

(** A promise built by hand with [new Promise]: what it settles with, the
    world and the events at that moment, and the callbacks still armed then,
    which run later whatever the promise settled with. *)
Record promise (A : Type) : Type := Promise {
  settled : outcome A;
  at_settle : world;
  emitted : list event;
  late : Js unit;
}.
Arguments Promise {A} _ _ _ _.
Arguments settled {A} _.
Arguments at_settle {A} _.
Arguments emitted {A} _.
Arguments late {A} _.

(** [await p]. *)
Definition await {A : Type} (p : world -> promise A) : Js A :=
  fun w => (settled (p w), at_settle (p w), emitted (p w)).

(** The world once the callbacks left armed have run too. *)
Definition quiescent {A : Type} (p : promise A) : world :=
  (late p (at_settle p)).1.2.

(** The events of the whole run, late callbacks included. *)
Definition all_events {A : Type} (p : promise A) : list event :=
  emitted p ++ (late p (at_settle p)).2.

(** The messages of the errors [fetchImage] builds. *)
Definition msg_timed_out : string :=
  "[SnapDOM - fetchImage] Image load timed out".
Definition msg_cors_proxy : string :=
  "[SnapDOM - fetchImage] CORS restrictions prevented image capture (even via proxy)".
Definition msg_no_proxy : string :=
  "[SnapDOM - fetchImage] Fetch fallback failed and no proxy provided".

Section ImageResolver.
Context (E : env).

(** [let timeout = 5000]. *)
Definition timeout : N := 5000.

Definition getCrossOriginMode (url : string) : cors_mode :=
  match url_origin E url with
  | Some o =>
      if String.eqb o (location_origin E) then UseCredentials else Anonymous
  | None => Anonymous
  end.

Definition credentials_of (m : cors_mode) : credentials :=
  match m with UseCredentials => Include | Anonymous => Omit end.

Definition fetchBlobAsDataURL (fetchUrl : string) : Js string :=
  let cred := credentials_of (getCrossOriginMode fetchUrl) in
  emit (EvFetch fetchUrl cred AsBlob);;
  match net_blob E fetchUrl cred with
  | BlobRejected e => throw e
  | ReaderError => throw (Error "FileReader error")
  | ReaderDone None => throw (Error "Invalid image data URL")
  | ReaderDone (Some base64) =>
      if negb (String.prefix "data:image/" base64)
      then throw (Error "Invalid image data URL")
      else ret base64
  end.

Definition fetchWithFallback (options : value) (url : string) : Js string :=
  try_catch (fetchBlobAsDataURL url) (fun _ =>
    let! useProxy := member options "useProxy" in
    if truthy useProxy && String.eqb (typeof useProxy) "string" then
      let proxied :=
        strip_trailing_slash
          (match useProxy with VStr p => p | _ => "" end)
        +:+ safeEncodeURI E url in
      try_catch (fetchBlobAsDataURL proxied) (fun _ =>
        throw (Error msg_cors_proxy))
    else
      throw (Error msg_no_proxy)).

(** The vector-image branch. *)
Definition fetchSVG (options : value) (src : string)
    (crossOriginValue : cors_mode) : Js string :=
  try_catch
    (emit (EvFetch src (credentials_of crossOriginValue) AsText);;
     match net_text E src (credentials_of crossOriginValue) with
     | Throw e => throw e
     | Ok svgText =>
         match encodeURIComponent E svgText with
         | None => throw (Foreign 0)
         | Some enc =>
             let encoded := "data:image/svg+xml;charset=utf-8," +:+ enc in
             cache_set NsImage src encoded;;
             ret encoded
         end
     end)
    (fun _ => fetchWithFallback options src).

(** The body shared by the two [catch] paths of the handlers: the fallback,
    then the cache write, then [resolve]; an error goes to [reject]. *)
Definition viaFallback (options : value) (src : string) : Js string :=
  let! fallbackDataURL := fetchWithFallback options src in
  cache_set NsImage src fallbackDataURL;;
  ret fallbackDataURL.

(** [image.onload]: the value it returns goes to [resolve], the error it
    throws to [reject]. *)
Definition onload (options : value) (src : string) : Js string :=
  emit EvTimerClear;;
  try_catch
    (emit (EvDecode src);;
     match rasterize E src with
     | None => throw (Foreign 1)
     | Some dataURL =>
         cache_set NsImage src dataURL;;
         ret dataURL
     end)
    (fun _ => viaFallback options src).

(** [image.onerror]. *)
Definition onerror (options : value) (src : string) : Js string :=
  emit EvTimerClear;;
  emit (EvConsole "error"
          ("[SnapDOM - fetchImage] Image failed to load: " +:+ src));;
  viaFallback options src.

Definition handler (s : signal) : value -> string -> Js string :=
  match s with SigLoad => onload | SigError => onerror end.

(** The raster branch: a timer of [timeout] milliseconds and an image
    element race. The first to fire settles the promise: the handler of a
    signal that comes before the timer is due clears the timer and its
    outcome is the promise's, however long its own awaits take; otherwise
    the timer rejects. Nothing disarms the handlers then, so a signal that
    comes after the timer still runs its handler, with all its effects, its
    [resolve] and [reject] being without effect on the settled promise. The
    statements below never rest on the order of a signal and a timer due at
    the same millisecond. *)
Definition fetchRaster (options : value) (src : string)
    (crossOriginValue : cors_mode) (w : world) : promise string :=
  let start := [EvTimerSet timeout; EvImageLoad src crossOriginValue] in
  let timed_out : outcome string :=
    Throw (Error msg_timed_out) in
  match image_signal E src with
  | None => Promise timed_out w (start ++ [EvTimerFire]) (ret tt)
  | Some (s, t) =>
      if (t <? timeout)%N then
        let '(r, w', ev) := handler s options src w in
        Promise r w' (start ++ ev) (ret tt)
      else
        Promise timed_out w (start ++ [EvTimerFire])
                (try_catch (handler s options src;; ret tt)
                           (fun _ => ret tt))
  end.

Definition fetchImage (src : string) (options : value) (w : world)
    : promise string :=
  let crossOriginValue := getCrossOriginMode src in
  match cache_image w !! src with
  | Some d =>
      (* [cache.image.has(src)]: [Promise.resolve(cache.image.get(src))] *)
      Promise (Ok d) w [EvCacheHas NsImage src; EvCacheGet NsImage src]
              (ret tt)
  | None =>
      let has := [EvCacheHas NsImage src] in
      if isDataURI src then
        let '(r, w', ev) := (cache_set NsImage src src;; ret src) w in
        Promise r w' (has ++ ev) (ret tt)
      else if isSVG src then
        let '(r, w', ev) := fetchSVG options src crossOriginValue w in
        Promise r w' (has ++ ev) (ret tt)
      else
        let p := fetchRaster options src crossOriginValue w in
        Promise (settled p) (at_settle p) (has ++ emitted p) (late p)
  end.

End ImageResolver.

(* ===================================================================== *)
(** ** The background entry resolver: [inlineSingleBackgroundEntry] *)
(* ===================================================================== *)

(** A default parameter [options = {}]: only [undefined] is replaced. *)
Definition or_empty_object (options : value) : value :=
  match options with VUndefined => VObj ∅ | _ => options end.

(** Truthiness of what [extractURL] returns: [null] and the empty string
    are falsy. *)
Definition has_payload (rawUrl : option string) : bool :=
  match rawUrl with
  | Some u => negb (String.eqb u "")
  | None => false
  end.

Section BackgroundResolver.
Context (E : env).

(** The result is [None] for [void 0]. A template literal prints a missing
    cache value as [undefined]. *)
Definition inlineSingleBackgroundEntry (entry : string) (options : value)
    : Js (option string) :=
  let options := or_empty_object options in
  let rawUrl := extractURL E entry in
  let gradient := isGradient entry in
  if has_payload rawUrl then
    let encodedUrl := safeEncodeURI E (default "" rawUrl) in
    let! hit := cache_has NsBackground encodedUrl in
    if (hit : bool) then
      let! skipInline := member options "skipInline" in
      if truthy skipInline then ret None
      else
        let! cached := cache_get NsBackground encodedUrl in
        ret (Some ("url(" +:+ default "undefined" cached +:+ ")"))
    else
      let! dataUrl := await (fetchImage E encodedUrl options) in
      cache_set NsBackground encodedUrl dataUrl;;
      let! skipInline := member options "skipInline" in
      if truthy skipInline then ret None
      else ret (Some ("url(" +:+ dquote +:+ dataUrl +:+ dquote +:+ ")"))
  else if gradient || String.eqb entry "none" then ret (Some entry)
  else ret (Some entry).

End BackgroundResolver.

(* ===================================================================== *)
(** ** The plugin registry and the hook runner: [core/plugins.js] *)
(* ===================================================================== *)

(** How a value prints inside a template literal (strings and numbers; the
    rest is not told apart). *)
Definition display (v : value) : string :=
  match v with
  | VStr s => s
  | VNum n => pretty n
  | VBool true => "true"
  | VBool false => "false"
  | VUndefined => "undefined"
  | VNull => "null"
  | _ => "[object]"
  end.

(** [use(plugin)]. *)
Definition use (plugin : value) : Js unit :=
  if negb (truthy (prop plugin "name")) then
    throw (Error "Plugin name is required")
  else
    fun w =>
      let name := prop plugin "name" in
      (Ok tt,
       set_pluginRegistry (fun r => map_set r name plugin) w,
       if map_has (pluginRegistry w) name
       then [EvConsole "warn"
               ("Overwriting existing plugin " +:+ dquote +:+ display name
                +:+ dquote)]
       else []).

(** [getGlobalPlugins()]. *)
Definition getGlobalPlugins : Js (list value) :=
  fun w => (Ok (map snd (pluginRegistry w)), w, []).

(** [clearPlugins()]. *)
Definition clearPlugins : Js unit :=
  fun w => (Ok tt, set_pluginRegistry (fun _ => []) w, []).

(** The object literal [{ ...base, options: { ...base.options,
    ...entry.options } }]: later properties win. The union of finite maps
    prefers its left operand. *)
Definition merge_override (base entry : value) : value :=
  VObj (<["options" :=
            VObj (spread (prop entry "options") ∪ spread (prop base "options"))]>
          (spread base)).

(** One turn of the loop of [normalizePlugins]: what it pushes and what it
    prints. *)
Definition normalizeEntry (registry : jsmap) (debug : value) (entry : value)
    : list value * list event :=
  if String.eqb (typeof entry) "string" then
    let global := default VUndefined (map_get registry entry) in
    if truthy global then ([global], [])
    else if truthy debug then
      ([], [EvConsole "warn" ("Unknown plugin name: " +:+ display entry)])
    else ([], [])
  else if truthy (prop entry "name") && String.eqb (typeof entry) "object" then
    let base := default VUndefined (map_get registry (prop entry "name")) in
    if truthy base then ([merge_override base entry], [])
    else ([entry], [])
  else if truthy debug then
    ([], [EvConsole "warn" "Invalid plugin configuration skipped"])
  else ([], []).

Fixpoint normalizeLoop (registry : jsmap) (debug : value)
    (plugins : list value) : list value * list event :=
  match plugins with
  | [] => ([], [])
  | entry :: rest =>
      let '(pushed, printed) := normalizeEntry registry debug entry in
      let '(normalized, events) := normalizeLoop registry debug rest in
      (pushed ++ normalized, printed ++ events)
  end.

(** [normalizePlugins(plugins, debug)], on the elements the [for ... of]
    gets from [plugins]. *)
Definition normalizePlugins (plugins : list value) (debug : value)
    : Js (list value) :=
  fun w =>
    let '(normalized, events) := normalizeLoop (pluginRegistry w) debug plugins
    in (Ok normalized, w, events).

(** What [for (const x of v)] iterates over. *)
Definition iterate (v : value) : Js (list value) :=
  match v with
  | VArr l => ret l
  | VStr s =>
      ret (map (fun c => VStr (String c EmptyString)) (list_ascii_of_string s))
  | _ => throw (TypeError "not iterable")
  end.

Section HookRunner.
Context (E : env).

(** The loop of [runHook] over the normalized list. The context is one
    shared object: a hook gets its fields as they are and leaves them as
    the next hook finds them. The plugins are read as they were when the
    list was normalized, and [plugin[hookName]] is read with [prop]: this is
    the loop of the source for the hook names of [recognized_hook] and for
    hooks that leave the plugin objects as they are ([hooks_keep_plugins]
    below). *)
Fixpoint hookLoop (hookName : string) (allPlugins : list value)
    (ctx : gmap string value) : Js (gmap string value) :=
  match allPlugins with
  | [] => ret ctx
  | plugin :: rest =>
      match prop plugin hookName with
      | VFun hookFn =>
          emit (EvHookStart hookFn ctx);;
          let! ctx' := foreign (call_fn E hookFn ctx) in
          emit (EvHookEnd hookFn ctx');;
          hookLoop hookName rest ctx'
      | _ => hookLoop hookName rest ctx
      end
  end.

(** [runHook(hookName, context)]; the result is the context object as the
    hooks left it. *)
Definition runHook (hookName : string) (context : value) : Js value :=
  let! plugins := member context "plugins" in
  let! options := member context "options" in
  let! entries := iterate (if truthy plugins then plugins else VArr []) in
  let! allPlugins := normalizePlugins entries (prop options "debug") in
  match context with
  | VObj ctx =>
      let! ctx' := hookLoop hookName allPlugins ctx in
      ret (VObj ctx')
  | _ => ret context
  end.

End HookRunner.

(* ===================================================================== *)
(** ** The capture orchestrator: [core/capture.js] *)
(* ===================================================================== *)

(** [Array.prototype.sort] without comparator on strings: ascending by
    code units, here by bytes. *)
Fixpoint insert_sorted (x : string) (l : list string) : list string :=
  match l with
  | [] => [x]
  | y :: l' => if String.leb x y then x :: l else y :: insert_sorted x l'
  end.

Definition sort_strings (l : list string) : list string :=
  fold_right insert_sorted [] l.

(** [l.join(",")]. *)
Fixpoint join_comma (l : list string) : string :=
  match l with
  | [] => ""
  | [x] => x
  | x :: l' => x +:+ "," +:+ join_comma l'
  end.

(** A default parameter value [= ""]. *)
Definition or_empty_string (v : value) : value :=
  match v with VUndefined => VStr "" | _ => v end.

(** Modelled from the spec: [idle] comes from [utils/helpers.js], which is
    not among the sources. Section 6 describes [fast] as skipping the
    cooperative-yield delays: with or without the delay the callback runs
    once and its result is the result. *)
Definition idle {A : Type} (fn : Js A) (fast : value) : Js A := fn.

Section Capture.
Context (E : env).

(** A call to a collaborator, announced. *)
Definition stage_call {A : Type} (s : stage)
    (f : world -> outcome A * world) : Js A :=
  emit (EvStage s);; foreign f.

Definition getBaseCSS (clone : node) : Js value :=
  let usedTags := sort_strings (collectUsedTagNames E clone) in
  let tagKey := join_comma usedTags in
  let! hit := cache_has NsBaseStyle tagKey in
  if (hit : bool) then
    let! cached := cache_get NsBaseStyle tagKey in
    ret (from_option VStr VUndefined cached)
  else
    let! baseCSS :=
      idle (stage_call StGenerateBaseCSS (generateDedupedBaseCSS E usedTags))
           VUndefined in
    cache_set NsBaseStyle tagKey baseCSS;;
    ret (VStr baseCSS).

(** The executor of the promise hands its whole body to [idle]; inside, a
    [try] turns whatever the DOM work throws into a rejection. *)
Definition buildSVGDataURL (original clone : node) (params : svg_params)
    : Js string :=
  let params :=
    SvgParams (or_empty_string (classCSS params))
              (or_empty_string (fontsCSS params))
              (or_empty_string (baseCSS params))
              (scale params) (width params) (height params) (fast params) in
  idle (stage_call StBuildSVG (svgDocument E original clone params))
       (fast params).

(** Step 5 of [captureDOM]: the sandbox lookup and its removal. *)
Definition cleanupSandbox : Js unit :=
  fun w =>
    match sandbox w with
    | Some position =>
        if String.eqb position "absolute"
        then (Ok tt, set_sandbox None w, [EvSandboxRemove])
        else (Ok tt, w, [])
    | None => (Ok tt, w, [])
    end.

Definition captureDOM (element : option node) (options : value)
    : Js string :=
  let options := or_empty_object options in
  match element with
  | None => throw (Error "Element cannot be null or undefined")
  | Some element =>
      cache_reset;;
      (* Step 1 *)
      let! (clone, classCSS) :=
        stage_call StPrepareClone (prepareClone E element options) in
      (* Step 2 *)
      let! fast := member options "fast" in
      idle (stage_call StInlineImages (inlineImages E clone options)) fast;;
      let! fast := member options "fast" in
      idle (stage_call StInlineBackgroundImages
              (inlineBackgroundImages E element clone options)) fast;;
      let! embedFonts := member options "embedFonts" in
      let! fontsCSS :=
        if truthy embedFonts then
          let! fast := member options "fast" in
          idle (stage_call StEmbedCustomFonts (embedCustomFonts E)) fast
        else ret (VStr "") in
      (* Step 3 *)
      let! compress := member options "compress" in
      let! baseCSS :=
        if truthy compress then getBaseCSS clone else ret (VStr "") in
      (* Step 4 *)
      let! scale := member options "scale" in
      let! width := member options "width" in
      let! height := member options "height" in
      let! fast := member options "fast" in
      let! dataURL :=
        buildSVGDataURL element clone
          (SvgParams classCSS fontsCSS baseCSS scale width height fast) in
      (* Step 5 *)
      cleanupSandbox;;
      ret dataURL
  end.

End Capture.

(* ===================================================================== *)
(** ** [createBackground] *)
(* ===================================================================== *)

(** A canvas element: its [width] and [height] and the calls made on its
    2D context, oldest first. *)
Inductive canvas : Type :=
  | Canvas (cwidth cheight : N) (calls : list context_call)
with context_call : Type :=
  | SetFillStyle (style : value)
  | FillRect (x y w h : N)
  | DrawImage (source : canvas) (dx dy : N).

Definition canvas_width (c : canvas) : N :=
  match c with Canvas w _ _ => w end.
Definition canvas_height (c : canvas) : N :=
  match c with Canvas _ h _ => h end.
Definition canvas_calls (c : canvas) : list context_call :=
  match c with Canvas _ _ calls => calls end.

(** The number of canvases a canvas is made of: itself and those drawn on
    it. *)
Fixpoint canvas_size (c : canvas) : nat :=
  match c with
  | Canvas _ _ calls =>
      S ((fix drawn (l : list context_call) : nat :=
            match l with
            | [] => 0
            | DrawImage source _ _ :: l' => canvas_size source + drawn l'
            | _ :: l' => drawn l'
            end) calls)
  end.

(** [createBackground(baseCanvas, backgroundColor)]. *)
Definition createBackground (baseCanvas : canvas) (backgroundColor : value)
    : canvas :=
  if negb (truthy backgroundColor)
     || (canvas_width baseCanvas =? 0)%N
     || (canvas_height baseCanvas =? 0)%N
  then baseCanvas
  else
    let temp_width := canvas_width baseCanvas in
    let temp_height := canvas_height baseCanvas in
    Canvas temp_width temp_height
      [SetFillStyle backgroundColor;
       FillRect 0 0 temp_width temp_height;
       DrawImage baseCanvas 0 0].

(* ===================================================================== *)
(** ** Vocabulary of the statements *)
(* ===================================================================== *)

(** The address [fetchWithFallback] asks the proxy for. *)
Definition proxied_url (E : env) (proxyBase url : string) : string :=
  strip_trailing_slash proxyBase +:+ safeEncodeURI E url.

(** A fetch-and-convert that succeeds at [url]: the body is read and is an
    embedded image. *)
Definition fetched (E : env) (url : string) : option string :=
  match net_blob E url (credentials_of (getCrossOriginMode E url)) with
  | ReaderDone (Some d) =>
      if String.prefix "data:image/" d then Some d else None
  | _ => None
  end.

(** The image element reports a failed load, or loads and then fails to
    decode or to draw, before the timer of [fetchImage] is due. *)
Definition load_or_decode_fails (E : env) (src : string) : Prop :=
  exists t : N,
    (t < timeout)%N /\
    (image_signal E src = Some (SigError, t) \/
     (image_signal E src = Some (SigLoad, t) /\ rasterize E src = None)).

(** Neither signal fires until the timer is due and has fired: none ever
    does, or one does later. *)
Definition silent_within_timeout (E : env) (src : string) : Prop :=
  image_signal E src = None \/
  exists (s : signal) (t : N),
    image_signal E src = Some (s, t) /\ (timeout < t)%N.


(** The hooks an event trace shows being started, in order. *)
Definition started (evs : list event) : list fn_id :=
  omap (fun e => match e with EvHookStart f _ => Some f | _ => None end) evs.




(** The outcome of [runHook] for the outcome of its loop. *)
Definition as_context (r : outcome (gmap string value)) : outcome value :=
  match r with
  | Ok c => Ok (VObj c)
  | Throw e => Throw e
  end.

(** The removal of the sandbox, as an event. *)
Definition is_removal (e : event) : bool :=
  match e with
  | EvSandboxRemove => true
  | _ => false
  end.

(** A computation none of whose runs emits an event of the kind [P]. *)
Definition avoids {A : Type} (P : event -> bool) (m : Js A) : Prop :=
  forall w : world, Forall (fun e => P e = false) (m w).2.

(** A computation whose throwing runs emit no event of the kind [P]. *)
Definition avoids_on_throw {A : Type} (P : event -> bool) (m : Js A) : Prop :=
  forall w : world,
    match (m w).1.1 with
    | Throw _ => Forall (fun e => P e = false) (m w).2
    | Ok _ => True
    end.

(** A computation whose returning runs end in a world satisfying [Q]. *)
Definition returns_in {A : Type} (Q : world -> Prop) (m : Js A) : Prop :=
  forall (w : world) (a : A) (w' : world) (ev : list event),
    m w = (Ok a, w', ev) -> Q w'.

(* ===================================================================== *)
(** ** Concrete scenarios *)
(* ===================================================================== *)

Definition empty_world : world := World ∅ ∅ ∅ [] None.

(** A page on [https://site.example] where nothing answers: no address is
    served, no image element ever fires, hooks and collaborators do
    nothing. The other scenarios change one or two fields of it. *)
Definition quiet : env := {|
  extractURL := fun _ => None;
  safeEncodeURI := fun s => s;
  location_origin := "https://site.example";
  url_origin := fun _ => Some "https://cdn.example";
  net_blob := fun _ _ => BlobRejected (Foreign 10);
  net_text := fun _ _ => Throw (Foreign 11);
  encodeURIComponent := fun s => Some s;
  image_signal := fun _ => None;
  rasterize := fun _ => None;
  call_fn := fun _ c w => (Ok c, w);
  prepareClone := fun el _ w => (Ok (el, VStr ""), w);
  inlineImages := fun _ _ w => (Ok tt, w);
  inlineBackgroundImages := fun _ _ _ w => (Ok tt, w);
  embedCustomFonts := fun w => (Ok (VStr ""), w);
  collectUsedTagNames := fun _ => [];
  generateDedupedBaseCSS := fun _ w => (Ok "", w);
  svgDocument := fun _ _ _ w => (Ok "data:image/svg+xml;charset=utf-8,doc", w);
|}.

Definition with_extractURL (f : string -> option string) (E : env) : env :=
  Env f (safeEncodeURI E) (location_origin E) (url_origin E) (net_blob E)
      (net_text E) (encodeURIComponent E) (image_signal E) (rasterize E)
      (call_fn E) (prepareClone E) (inlineImages E) (inlineBackgroundImages E)
      (embedCustomFonts E) (collectUsedTagNames E) (generateDedupedBaseCSS E)
      (svgDocument E).

Definition with_net_blob (f : string -> credentials -> blob_outcome) (E : env)
    : env :=
  Env (extractURL E) (safeEncodeURI E) (location_origin E) (url_origin E) f
      (net_text E) (encodeURIComponent E) (image_signal E) (rasterize E)
      (call_fn E) (prepareClone E) (inlineImages E) (inlineBackgroundImages E)
      (embedCustomFonts E) (collectUsedTagNames E) (generateDedupedBaseCSS E)
      (svgDocument E).

Definition with_image (sig : string -> option (signal * N))
    (r : string -> option string) (E : env) : env :=
  Env (extractURL E) (safeEncodeURI E) (location_origin E) (url_origin E)
      (net_blob E) (net_text E) (encodeURIComponent E) sig r
      (call_fn E) (prepareClone E) (inlineImages E) (inlineBackgroundImages E)
      (embedCustomFonts E) (collectUsedTagNames E) (generateDedupedBaseCSS E)
      (svgDocument E).

Definition with_call_fn
    (f : fn_id -> gmap string value -> world ->
         outcome (gmap string value) * world) (E : env) : env :=
  Env (extractURL E) (safeEncodeURI E) (location_origin E) (url_origin E)
      (net_blob E) (net_text E) (encodeURIComponent E) (image_signal E)
      (rasterize E) f (prepareClone E) (inlineImages E)
      (inlineBackgroundImages E) (embedCustomFonts E) (collectUsedTagNames E)
      (generateDedupedBaseCSS E) (svgDocument E).

Definition with_prepareClone
    (f : node -> value -> world -> outcome (node * value) * world) (E : env)
    : env :=
  Env (extractURL E) (safeEncodeURI E) (location_origin E) (url_origin E)
      (net_blob E) (net_text E) (encodeURIComponent E) (image_signal E)
      (rasterize E) (call_fn E) f (inlineImages E)
      (inlineBackgroundImages E) (embedCustomFonts E) (collectUsedTagNames E)
      (generateDedupedBaseCSS E) (svgDocument E).

Definition with_svgDocument
    (f : node -> node -> svg_params -> world -> outcome string * world)
    (E : env) : env :=
  Env (extractURL E) (safeEncodeURI E) (location_origin E) (url_origin E)
      (net_blob E) (net_text E) (encodeURIComponent E) (image_signal E)
      (rasterize E) (call_fn E) (prepareClone E) (inlineImages E)
      (inlineBackgroundImages E) (embedCustomFonts E) (collectUsedTagNames E)
      (generateDedupedBaseCSS E) f.

Definition pic : string := "https://cdn.example/pic.png".
Definition png_A : string := "data:image/png;base64,AAAA".
Definition png_B : string := "data:image/png;base64,BBBB".

(** The image at [pic] loads and decodes, but only six seconds after the
    request. *)
Definition slow_image : env :=
  with_image (fun _ => Some (SigLoad, 6000%N)) (fun _ => Some png_A) quiet.

(** The image element reports an error at once; the address itself is not
    served; a proxy answers, differently with and without a slash between
    its base and the address. *)
Definition proxy_base : string := "https://proxy.example/".

Definition behind_proxy : env :=
  with_net_blob
    (fun url _ =>
       if String.eqb url (proxy_base +:+ pic) then ReaderDone (Some png_A)
       else if String.eqb url ("https://proxy.example" +:+ pic)
       then ReaderDone (Some png_B)
       else BlobRejected (Foreign 10))
    (with_image (fun _ => Some (SigError, 10%N)) (fun _ => None) quiet).

Definition proxy_options : value :=
  VObj {[ "useProxy" := VStr proxy_base ]}.

(** A background layer [url(https://cdn.example/pic.png)] whose image loads
    and decodes at once. *)
Definition layer : string := "url(" +:+ pic +:+ ")".

Definition one_layer : env :=
  with_extractURL
    (fun entry => if String.eqb entry layer then Some pic else None)
    (with_image (fun _ => Some (SigLoad, 20%N)) (fun _ => Some png_A) quiet).

(** Two plugins with an [afterRender] hook: the first stamps the context,
    the second copies the stamp it finds. *)
Definition stamping : env :=
  with_call_fn
    (fun f c w =>
       match f with
       | 1%nat => (Ok (<["stamp" := VNum 7]> c), w)
       | 2%nat => (Ok (<["seen" := prop (VObj c) "stamp"]> c), w)
       | _ => (Ok c, w)
       end)
    quiet.

Definition plugin_A : value :=
  VObj {[ "name" := VStr "A"; "afterRender" := VFun 1 ]}.


(** The cloning collaborator leaves the sandbox in the document, absolutely
    positioned, and the document assembly throws. *)
Definition leaking : env :=
  with_prepareClone
    (fun el _ w => (Ok (el, VStr ""), set_sandbox (Some "absolute") w))
    (with_svgDocument (fun _ _ _ w => (Throw (Foreign 3), w)) quiet).

(** The same cloning collaborator with a document assembly that succeeds. *)
Definition tidy : env :=
  with_prepareClone
    (fun el _ w => (Ok (el, VStr ""), set_sandbox (Some "absolute") w))
    quiet.

(** A plugin with a [beforeClone] hook, registered globally and listed in
    the options of the capture. *)
Definition plugin_P : value :=
  VObj {[ "name" := VStr "P"; "beforeClone" := VFun 1 ]}.

Definition plugin_world : world :=
  World ∅ ∅ ∅ [(VStr "P", plugin_P)] None.

Definition plugin_options : gmap string value :=
  {[ "plugins" := VArr [plugin_P]; "fast" := VBool true ]}.

(** The registration [{name: x, options: {a: 1}}] and the local override
    [{name: x, options: {b: 2}}]. *)
Definition global_x : value :=
  VObj {[ "name" := VStr "x"; "options" := VObj {[ "a" := VNum 1 ]} ]}.
Definition local_x : value :=
  VObj {[ "name" := VStr "x"; "options" := VObj {[ "b" := VNum 2 ]} ]}.

(* ===================================================================== *)
(** ** Vocabulary and scenarios of the further properties *)
(* ===================================================================== *)
(** The collaborator stages an event trace shows, in order. *)
Definition stages (evs : list event) : list stage :=
  omap (fun e => match e with EvStage s => Some s | _ => None end) evs.

(** The plugin registered under a string name. *)
Definition registered (w : world) (name : string) : option value :=
  map_get (pluginRegistry w) (VStr name).

(** The entries [normalizePlugins] takes as inline plugin objects. *)
Definition is_inline_plugin (entry : value) : bool :=
  negb (String.eqb (typeof entry) "string")
  && truthy (prop entry "name") && String.eqb (typeof entry) "object".

(** A network request whose credentials mode is not the one its address
    calls for: [include] for an address of the page's origin, [omit] for
    any other. *)
Definition wrong_credentials (E : env) (e : event) : bool :=
  match e with
  | EvFetch url Include _ =>
      match getCrossOriginMode E url with
      | UseCredentials => false
      | Anonymous => true
      end
  | EvFetch url Omit _ =>
      match getCrossOriginMode E url with
      | UseCredentials => true
      | Anonymous => false
      end
  | _ => false
  end.

(** Two worlds that differ at most in the entry of the image namespace
    under [src]. *)
Definition differ_at_image (src : string) (w w' : world) : Prop :=
  cache_background w' = cache_background w /\
  cache_baseStyle w' = cache_baseStyle w /\
  pluginRegistry w' = pluginRegistry w /\
  sandbox w' = sandbox w /\
  forall k : string, k <> src -> cache_image w' !! k = cache_image w !! k.



(** A vector image whose text request succeeds, and one whose text request
    fails while the file itself can be fetched as an image. *)
Definition logo : string := "https://cdn.example/logo.svg?v=2".

Definition svg_served : env :=
  Env (extractURL quiet) (safeEncodeURI quiet) (location_origin quiet)
      (url_origin quiet) (net_blob quiet)
      (fun _ _ => Ok "<svg/>") (encodeURIComponent quiet)
      (image_signal quiet) (rasterize quiet) (call_fn quiet)
      (prepareClone quiet) (inlineImages quiet)
      (inlineBackgroundImages quiet) (embedCustomFonts quiet)
      (collectUsedTagNames quiet) (generateDedupedBaseCSS quiet)
      (svgDocument quiet).

Definition svg_as_blob : env :=
  with_net_blob
    (fun _ _ => ReaderDone (Some "data:image/svg+xml;base64,PHN2Zy8+"))
    quiet.

(** The collaborators of [captureDOM] in the order of its body. *)
Definition pipeline : list stage :=
  [StPrepareClone; StInlineImages; StInlineBackgroundImages;
   StEmbedCustomFonts; StGenerateBaseCSS; StBuildSVG].

(** The stages of every capture, as opposed to those an option asks for. *)
Definition unconditional (s : stage) : bool :=
  match s with
  | StEmbedCustomFonts | StGenerateBaseCSS => false
  | _ => true
  end.

(** The order [Array.prototype.sort] puts strings in. *)
Definition string_le (a b : string) : Prop := String.leb a b = true.

(** Two clones with the tags [div], [span] and [p], collected in different
    orders, and a generator of base styles. *)
Definition tagged : env :=
  Env (extractURL quiet) (safeEncodeURI quiet) (location_origin quiet)
      (url_origin quiet) (net_blob quiet) (net_text quiet)
      (encodeURIComponent quiet) (image_signal quiet) (rasterize quiet)
      (call_fn quiet) (prepareClone quiet) (inlineImages quiet)
      (inlineBackgroundImages quiet) (embedCustomFonts quiet)
      (fun clone =>
         match clone with
         | 1%nat => ["span"; "div"; "p"]
         | _ => ["p"; "span"; "div"]
         end)
      (fun tags w => (Ok (join_comma tags +:+ "{}"), w))
      (svgDocument quiet).

(* ===================================================================== *)
(** ** Properties of the image resolver *)
(* ===================================================================== *)

Section ImageResolverFacts.
Context (E : env).

Lemma fetchImage_hit (src : string) (options : value) (w : world)
    (d : string) :
  cache_image w !! src = Some d ->
  fetchImage E src options w
  = Promise (Ok d) w [EvCacheHas NsImage src; EvCacheGet NsImage src]
            (ret tt).
Proof. intros Hhit. unfold fetchImage. by rewrite Hhit. Qed.

End ImageResolverFacts.

(** C5. A source reference already present in the image namespace of the
    cache resolves at once to the cached value: the promise is settled with
    it, the world is left as it was, nothing stays armed, and the whole run
    consists of the two cache reads, none of its events being network or
    decoding work. *)
Theorem fetchImage_cached_no_io (E : env) (src : string) (options : value)
    (w : world) (d : string) :
  cache_image w !! src = Some d ->
  settled (fetchImage E src options w) = Ok d /\
  at_settle (fetchImage E src options w) = w /\
  quiescent (fetchImage E src options w) = w /\
  all_events (fetchImage E src options w)
  = [EvCacheHas NsImage src; EvCacheGet NsImage src] /\
  Forall (fun e => is_io e = false) (all_events (fetchImage E src options w)).
Proof.
  intros Hhit. rewrite (fetchImage_hit E src options w d Hhit).
  unfold quiescent, all_events. simpl.
  repeat split; auto.
Qed.

Lemma fetchImage_cached_no_io_witness :
  settled (fetchImage quiet pic (VObj ∅)
             (set_cache_image (fun m => <[pic := png_A]> m) empty_world))
  = Ok png_A.
Proof.
  apply (fetchImage_cached_no_io quiet pic (VObj ∅)
           (set_cache_image (fun m => <[pic := png_A]> m) empty_world) png_A).
  simpl. apply lookup_insert_eq.
Defined.

(* ===================================================================== *)
(** ** The raster branch of the image resolver *)
(* ===================================================================== *)

Section RasterFacts.
Context (E : env).

Lemma fetchBlob_fetched (url d : string) (w : world) :
  fetched E url = Some d ->
  (fetchBlobAsDataURL E url w).1 = (Ok d, w).
Proof.
  unfold fetched, fetchBlobAsDataURL, bind, emit. simpl.
  destruct (net_blob E url _) as [e| |[b|]]; try discriminate.
  destruct (String.prefix "data:image/" b); [|discriminate].
  intros [= ->]. reflexivity.
Qed.

Lemma fetchBlob_failed (url : string) (w : world) :
  fetched E url = None ->
  exists e : error, (fetchBlobAsDataURL E url w).1 = (Throw e, w).
Proof.
  unfold fetched, fetchBlobAsDataURL, bind, emit. simpl.
  destruct (net_blob E url _) as [e| |[b|]]; simpl; eauto.
  destruct (String.prefix "data:image/" b); [discriminate|]. simpl. eauto.
Qed.

Lemma fallback_direct (options : value) (url d : string) (w : world) :
  fetched E url = Some d ->
  (fetchWithFallback E options url w).1 = (Ok d, w).
Proof.
  intros Hd. pose proof (fetchBlob_fetched url d w Hd) as H.
  unfold fetchWithFallback, try_catch.
  destruct (fetchBlobAsDataURL E url w) as [[r w1] ev]. simpl in H.
  injection H as -> ->. reflexivity.
Qed.

Lemma proxy_test (proxyBase : string) :
  proxyBase <> "" ->
  truthy (VStr proxyBase) && String.eqb (typeof (VStr proxyBase)) "string"
  = true.
Proof.
  intros Hne. simpl.
  destruct (String.eqb_spec proxyBase ""); [contradiction | reflexivity].
Qed.

Lemma fallback_proxied (o : gmap string value) (url proxyBase : string)
    (w : world) :
  fetched E url = None ->
  o !! "useProxy" = Some (VStr proxyBase) ->
  proxyBase <> "" ->
  (fetchWithFallback E (VObj o) url w).1
  = match fetched E (proxied_url E proxyBase url) with
    | Some d => (Ok d, w)
    | None =>
        (Throw (Error msg_cors_proxy),
         w)
    end.
Proof.
  intros Hd Hp Hne.
  destruct (fetchBlob_failed url w Hd) as [e He].
  unfold fetchWithFallback, try_catch.
  destruct (fetchBlobAsDataURL E url w) as [[r w1] ev]. simpl in He.
  injection He as -> ->.
  unfold member, bind, ret. cbn [nullish prop]. rewrite Hp.
  cbn [default id]. rewrite (proxy_test proxyBase Hne).
  fold (proxied_url E proxyBase url).
  destruct (fetched E (proxied_url E proxyBase url)) as [d|] eqn:Hpx.
  - pose proof (fetchBlob_fetched _ d w Hpx) as H.
    destruct (fetchBlobAsDataURL E (proxied_url E proxyBase url) w)
      as [[r w1] ev1].
    simpl in H. injection H as -> ->. reflexivity.
  - destruct (fetchBlob_failed _ w Hpx) as [e' H].
    destruct (fetchBlobAsDataURL E (proxied_url E proxyBase url) w)
      as [[r w1] ev1].
    simpl in H. injection H as -> ->. reflexivity.
Qed.

(** What [resolve] or [reject] receives from the fallback path is what
    [fetchWithFallback] produced. *)
Lemma viaFallback_outcome (options : value) (src : string) (w : world) :
  (viaFallback E options src w).1.1 = (fetchWithFallback E options src w).1.1.
Proof.
  unfold viaFallback, bind.
  destruct (fetchWithFallback E options src w) as [[[d|e] w1] ev];
    reflexivity.
Qed.

Lemma handler_falls_back (s : signal) (options : value) (src : string)
    (w : world) :
  s = SigError \/ (s = SigLoad /\ rasterize E src = None) ->
  (handler E s options src w).1.1 = (fetchWithFallback E options src w).1.1.
Proof.
  rewrite <- viaFallback_outcome.
  intros [-> | [-> Hr]]; unfold handler, onerror, onload.
  - unfold bind at 1 2, emit.
    destruct (viaFallback E options src w) as [[r w1] ev]. reflexivity.
  - rewrite Hr. unfold bind at 1, emit, try_catch, bind, throw.
    destruct (viaFallback E options src w) as [[r w1] ev]. reflexivity.
Qed.

(** The promise of an uncached raster reference is that of [fetchRaster],
    after the cache test. *)
Lemma fetchImage_raster (src : string) (options : value) (w : world) :
  cache_image w !! src = None ->
  isDataURI src = false ->
  isSVG src = false ->
  fetchImage E src options w
  = let p := fetchRaster E options src (getCrossOriginMode E src) w in
    Promise (settled p) (at_settle p) ([EvCacheHas NsImage src] ++ emitted p)
            (late p).
Proof. intros Hc Hd Hs. unfold fetchImage. by rewrite Hc, Hd, Hs. Qed.

Lemma fetchRaster_in_time (s : signal) (t : N) (options : value)
    (src : string) (m : cors_mode) (w : world) :
  image_signal E src = Some (s, t) ->
  (t < timeout)%N ->
  settled (fetchRaster E options src m w) = (handler E s options src w).1.1.
Proof.
  intros Hsig Ht. unfold fetchRaster. rewrite Hsig.
  apply N.ltb_lt in Ht. rewrite Ht.
  destruct (handler E s options src w) as [[r w1] ev]. reflexivity.
Qed.

Lemma fetchRaster_silent (options : value) (src : string) (m : cors_mode)
    (w : world) :
  silent_within_timeout E src ->
  settled (fetchRaster E options src m w)
  = Throw (Error msg_timed_out) /\
  at_settle (fetchRaster E options src m w) = w /\
  (image_signal E src = None ->
   quiescent (fetchRaster E options src m w) = w).
Proof.
  unfold fetchRaster, quiescent.
  intros [Hnone | (s & t & Hsig & Ht)].
  - rewrite Hnone. simpl. auto.
  - rewrite Hsig. assert ((t <? timeout)%N = false) as ->.
    { apply N.ltb_ge. lia. }
    simpl. repeat split. discriminate.
Qed.

End RasterFacts.

(** C4, as amended. For an uncached raster reference whose image element
    reports a load error, or loads and fails to decode, before the 5000 ms
    timer is due: the promise resolves with the fetched-and-converted value
    when the direct fetch succeeds; when it fails and [useProxy] is a
    non-empty string, with the value fetched from that string with one
    trailing slash removed followed by the encoded reference; and when
    that fails too it rejects with the error naming the CORS restrictions
    that held even via the proxy. *)
Theorem fetchImage_fallback_escalation (E : env) (src : string)
    (o : gmap string value) (w : world) :
  cache_image w !! src = None ->
  isDataURI src = false ->
  isSVG src = false ->
  load_or_decode_fails E src ->
  (forall d : string,
      fetched E src = Some d ->
      settled (fetchImage E src (VObj o) w) = Ok d) /\
  (forall proxyBase d : string,
      fetched E src = None ->
      o !! "useProxy" = Some (VStr proxyBase) ->
      proxyBase <> "" ->
      fetched E (proxied_url E proxyBase src) = Some d ->
      settled (fetchImage E src (VObj o) w) = Ok d) /\
  (forall proxyBase : string,
      fetched E src = None ->
      o !! "useProxy" = Some (VStr proxyBase) ->
      proxyBase <> "" ->
      fetched E (proxied_url E proxyBase src) = None ->
      settled (fetchImage E src (VObj o) w)
      = Throw (Error msg_cors_proxy)).
Proof.
  intros Hc Hd Hs (t & Ht & Hfail).
  rewrite (fetchImage_raster E src (VObj o) w Hc Hd Hs). cbn [settled].
  assert (Hset : settled (fetchRaster E (VObj o) src (getCrossOriginMode E src) w)
                 = (fetchWithFallback E (VObj o) src w).1.1).
  { destruct Hfail as [Hsig | [Hsig Hr]].
    - rewrite (fetchRaster_in_time E SigError t) by done.
      apply handler_falls_back. by left.
    - rewrite (fetchRaster_in_time E SigLoad t) by done.
      apply handler_falls_back. by right. }
  rewrite Hset. repeat split.
  - intros d Hdirect. by rewrite (fallback_direct E (VObj o) src d w Hdirect).
  - intros proxyBase d Hdirect Hp Hne Hpx.
    rewrite (fallback_proxied E o src proxyBase w Hdirect Hp Hne).
    by rewrite Hpx.
  - intros proxyBase Hdirect Hp Hne Hpx.
    rewrite (fallback_proxied E o src proxyBase w Hdirect Hp Hne).
    by rewrite Hpx.
Qed.

Lemma fetchImage_fallback_escalation_witness :
  settled (fetchImage behind_proxy pic proxy_options empty_world) = Ok png_B.
Proof.
  refine (proj1 (proj2 (fetchImage_fallback_escalation behind_proxy pic
                          {[ "useProxy" := VStr proxy_base ]} empty_world
                          _ _ _ _)) proxy_base png_B _ _ _ _);
    try reflexivity; try discriminate.
  exists 10%N. split; [reflexivity | left; reflexivity].
Defined.

(** C4 as stated fails where the proxy base ends in a slash: the proxy would
    serve [png_A] at the base concatenated with the encoded reference, but
    the request goes to the address without that slash and the promise
    resolves with what is served there. *)
Lemma fetchImage_proxy_concatenation_counterexample :
  cache_image empty_world !! pic = None /\
  isDataURI pic = false /\
  isSVG pic = false /\
  image_signal behind_proxy pic = Some (SigError, 10%N) /\
  fetched behind_proxy pic = None /\
  prop proxy_options "useProxy" = VStr proxy_base /\
  fetched behind_proxy (proxy_base +:+ safeEncodeURI behind_proxy pic)
  = Some png_A /\
  settled (fetchImage behind_proxy pic proxy_options empty_world) = Ok png_B /\
  settled (fetchImage behind_proxy pic proxy_options empty_world) <> Ok png_A.
Proof. repeat split; try reflexivity. vm_compute. discriminate. Qed.

(** C6, as amended. For an uncached raster reference whose load and error
    signals do not fire within 5000 ms, the promise rejects with the
    time-out error and, when it does, the image namespace holds no entry for
    the reference; if neither signal ever fires, it holds none after the
    whole run either. *)
Theorem fetchImage_timeout (E : env) (src : string) (options : value)
    (w : world) :
  cache_image w !! src = None ->
  isDataURI src = false ->
  isSVG src = false ->
  silent_within_timeout E src ->
  settled (fetchImage E src options w)
  = Throw (Error msg_timed_out) /\
  cache_image (at_settle (fetchImage E src options w)) !! src = None /\
  (image_signal E src = None ->
   cache_image (quiescent (fetchImage E src options w)) !! src = None).
Proof.
  intros Hc Hd Hs Hsilent.
  rewrite (fetchImage_raster E src options w Hc Hd Hs).
  destruct (fetchRaster_silent E options src (getCrossOriginMode E src) w
              Hsilent) as (Hset & Hw & Hq).
  unfold quiescent in *. cbn [settled at_settle late].
  split; [exact Hset|]. split.
  - by rewrite Hw.
  - intros Hnone. by rewrite (Hq Hnone).
Qed.

Lemma fetchImage_timeout_witness :
  settled (fetchImage quiet pic (VObj ∅) empty_world)
  = Throw (Error msg_timed_out).
Proof.
  apply (fetchImage_timeout quiet pic (VObj ∅) empty_world);
    try reflexivity.
  left. reflexivity.
Defined.

(** C6 as stated fails when the load signal comes late: the promise has
    rejected with the time-out error, and the handler that then runs still
    writes the decoded image into the image namespace. *)
Lemma fetchImage_late_load_counterexample :
  cache_image empty_world !! pic = None /\
  isDataURI pic = false /\
  isSVG pic = false /\
  image_signal slow_image pic = Some (SigLoad, 6000%N) /\
  settled (fetchImage slow_image pic (VObj ∅) empty_world)
  = Throw (Error msg_timed_out) /\
  cache_image (quiescent (fetchImage slow_image pic (VObj ∅) empty_world))
    !! pic = Some png_A.
Proof. repeat split; vm_compute; reflexivity. Qed.

(* ===================================================================== *)
(** ** Further properties of the image resolver *)
(* ===================================================================== *)

Section SettleFacts.
Context (E : env).

Lemma fetchBlob_world (url : string) (w : world) :
  (fetchBlobAsDataURL E url w).1.2 = w.
Proof.
  unfold fetchBlobAsDataURL, bind, emit. simpl.
  destruct (net_blob E url _) as [e| |[b|]]; try reflexivity.
  destruct (String.prefix "data:image/" b); reflexivity.
Qed.

(** The network leaves the world as it is. *)
Lemma fetchWithFallback_world (options : value) (url : string) (w : world) :
  (fetchWithFallback E options url w).1.2 = w.
Proof.
  unfold fetchWithFallback, try_catch.
  pose proof (fetchBlob_world url w) as H1.
  destruct (fetchBlobAsDataURL E url w) as [[[d|e] w1] ev1];
    simpl in H1; subst w1; [reflexivity|].
  unfold member, bind, throw, ret.
  destruct (nullish options); [reflexivity|]. simpl.
  destruct (truthy (prop options "useProxy") && _); [|reflexivity].
  match goal with
  | |- context [fetchBlobAsDataURL E ?u w] =>
      pose proof (fetchBlob_world u w) as H2;
      destruct (fetchBlobAsDataURL E u w) as [[[d'|e'] w2] ev2]
  end; simpl in H2; subst w2; reflexivity.
Qed.

Lemma viaFallback_throw (options : value) (src : string) (w : world)
    (e : error) :
  (viaFallback E options src w).1.1 = Throw e ->
  (viaFallback E options src w).1.2 = w.
Proof.
  unfold viaFallback, bind.
  pose proof (fetchWithFallback_world options src w) as H.
  destruct (fetchWithFallback E options src w) as [[[d|e'] w1] ev];
    simpl in *; [discriminate | by subst w1].
Qed.

Lemma handler_throw (s : signal) (options : value) (src : string)
    (w : world) (e : error) :
  (handler E s options src w).1.1 = Throw e ->
  (handler E s options src w).1.2 = w.
Proof.
  pose proof (viaFallback_throw options src w) as Hv.
  destruct s; unfold handler, onload, onerror, try_catch, bind, emit,
    throw, ret, cache_set; simpl.
  - destruct (rasterize E src); simpl; [discriminate|].
    destruct (viaFallback E options src w) as [[r w1] ev]. simpl in *.
    intros ->. eauto.
  - destruct (viaFallback E options src w) as [[r w1] ev]. simpl in *.
    intros ->. eauto.
Qed.

End SettleFacts.

(** A resolution that fails has written nothing when it fails: the world,
    and with it every namespace of the cache, is the one it started from. *)
Theorem fetchImage_failure_writes_nothing (E : env) (src : string)
    (options : value) (w : world) (e : error) :
  settled (fetchImage E src options w) = Throw e ->
  at_settle (fetchImage E src options w) = w.
Proof.
  unfold fetchImage.
  destruct (cache_image w !! src); [discriminate|].
  destruct (isDataURI src); [discriminate|].
  destruct (isSVG src).
  - unfold fetchSVG, try_catch, bind, emit, throw, ret, cache_set. simpl.
    pose proof (fetchWithFallback_world E options src w) as Hw.
    destruct (net_text E src _) as [svgText|e1]; simpl.
    + destruct (encodeURIComponent E svgText); simpl; [discriminate|].
      destruct (fetchWithFallback E options src w) as [[r w1] ev].
      simpl in *. by intros _.
    + destruct (fetchWithFallback E options src w) as [[r w1] ev].
      simpl in *. by intros _.
  - unfold fetchRaster. cbn [settled at_settle].
    destruct (image_signal E src) as [[s t]|]; [|reflexivity].
    destruct (t <? timeout)%N; [|reflexivity].
    pose proof (handler_throw E s options src w) as Hh.
    destruct (handler E s options src w) as [[r w1] ev]. simpl in *.
    intros ->. eauto.
Qed.

Lemma fetchImage_failure_writes_nothing_witness :
  at_settle (fetchImage quiet pic (VObj ∅) empty_world) = empty_world.
Proof.
  apply (fetchImage_failure_writes_nothing quiet pic (VObj ∅) empty_world
           (Error msg_timed_out)).
  reflexivity.
Defined.

(** An embedded-image reference not yet cached resolves to itself, is
    cached under itself, and the run does no network or decoding work. *)
Theorem fetchImage_data_uri_identity (E : env) (src : string)
    (options : value) (w : world) :
  cache_image w !! src = None ->
  isDataURI src = true ->
  settled (fetchImage E src options w) = Ok src /\
  cache_image (at_settle (fetchImage E src options w)) !! src = Some src /\
  Forall (fun e => is_io e = false) (all_events (fetchImage E src options w)).
Proof.
  intros Hmiss Hdata. unfold fetchImage, all_events. rewrite Hmiss, Hdata.
  simpl. split; [reflexivity|]. split; [apply lookup_insert_eq|].
  repeat constructor.
Qed.

Lemma fetchImage_data_uri_identity_witness :
  settled (fetchImage quiet png_A (VObj ∅) empty_world) = Ok png_A.
Proof.
  apply (fetchImage_data_uri_identity quiet png_A (VObj ∅) empty_world);
    reflexivity.
Defined.

(** When the direct fetch of the fallback path fails and [useProxy] is not
    a non-empty string, the resolution of a raster reference whose load or
    decode failed rejects with the error for a missing proxy. *)
Theorem fetchImage_fallback_without_proxy (E : env) (src : string)
    (o : gmap string value) (w : world) :
  cache_image w !! src = None ->
  isDataURI src = false ->
  isSVG src = false ->
  load_or_decode_fails E src ->
  fetched E src = None ->
  truthy (prop (VObj o) "useProxy")
  && String.eqb (typeof (prop (VObj o) "useProxy")) "string" = false ->
  settled (fetchImage E src (VObj o) w)
  = Throw (Error msg_no_proxy).
Proof.
  intros Hc Hd Hs (t & Ht & Hfail) Hdirect Hnoproxy.
  rewrite (fetchImage_raster E src (VObj o) w Hc Hd Hs). cbn [settled].
  assert (Hset : settled (fetchRaster E (VObj o) src (getCrossOriginMode E src) w)
                 = (fetchWithFallback E (VObj o) src w).1.1).
  { destruct Hfail as [Hsig | [Hsig Hr]].
    - rewrite (fetchRaster_in_time E SigError t) by done.
      apply handler_falls_back. by left.
    - rewrite (fetchRaster_in_time E SigLoad t) by done.
      apply handler_falls_back. by right. }
  rewrite Hset.
  destruct (fetchBlob_failed E src w Hdirect) as [e He].
  unfold fetchWithFallback, try_catch.
  destruct (fetchBlobAsDataURL E src w) as [[r w1] ev]. simpl in He.
  injection He as -> ->.
  unfold member, bind, ret. cbn [nullish]. rewrite Hnoproxy. reflexivity.
Qed.

Lemma fetchImage_fallback_without_proxy_witness :
  settled (fetchImage behind_proxy pic (VObj ∅) empty_world)
  = Throw (Error msg_no_proxy).
Proof.
  apply (fetchImage_fallback_without_proxy behind_proxy pic ∅ empty_world);
    try reflexivity.
  exists 10%N. split; [reflexivity | left; reflexivity].
Defined.

(* ===================================================================== *)
(** ** Properties of the background entry resolver *)
(* ===================================================================== *)

(** C8. An entry from which [extractURL] gets no payload (a gradient call,
    the literal [none], or anything else) comes back unchanged: the call
    returns the entry itself and does not throw, the world (the background
    namespace with it) is as before, and no event of the run reads or writes
    the background namespace; in fact the run emits no event at all. *)
Theorem inlineSingleBackgroundEntry_passthrough (E : env) (entry : string)
    (options : value) (w : world) :
  has_payload (extractURL E entry) = false ->
  (inlineSingleBackgroundEntry E entry options w).1.1 = Ok (Some entry) /\
  (inlineSingleBackgroundEntry E entry options w).1.2 = w /\
  (inlineSingleBackgroundEntry E entry options w).2 = [] /\
  Forall (fun e => touches NsBackground e = false)
         (inlineSingleBackgroundEntry E entry options w).2.
Proof.
  intros Hno. unfold inlineSingleBackgroundEntry. rewrite Hno.
  destruct (isGradient entry || String.eqb entry "none"); simpl;
    repeat split; constructor.
Qed.

Lemma inlineSingleBackgroundEntry_passthrough_witness :
  (inlineSingleBackgroundEntry one_layer "linear-gradient(red, blue)"
     (VObj ∅) empty_world).1.1
  = Ok (Some "linear-gradient(red, blue)").
Proof.
  apply (inlineSingleBackgroundEntry_passthrough one_layer
           "linear-gradient(red, blue)" (VObj ∅) empty_world).
  reflexivity.
Defined.

(* ===================================================================== *)
(** ** The background entry resolver on entries with a payload *)
(* ===================================================================== *)

Lemma length_append (a b : string) :
  String.length (a +:+ b) = (String.length a + String.length b)%nat.
Proof. induction a as [|c a IH]; simpl; [reflexivity | by rewrite IH]. Qed.

(** The quoted and the unquoted wrapping of one payload are different
    strings. *)
Lemma quoted_differs (d : string) :
  "url(" +:+ dquote +:+ d +:+ dquote +:+ ")" <> "url(" +:+ d +:+ ")".
Proof.
  intros Heq. apply (f_equal String.length) in Heq.
  rewrite !length_append in Heq. simpl in Heq. lia.
Qed.

(** C3, on the code. For an entry with a payload and without [skipInline]:
    when the first call misses the background namespace and the image
    resolves to [d], that call returns the payload wrapped with quotes; a
    later call on the world it left hits the background namespace (its whole
    run is the two cache reads) and returns the payload wrapped without
    quotes. The two returned values are different. *)
Theorem inlineSingleBackgroundEntry_hit_differs_from_miss (E : env)
    (entry : string) (o : gmap string value) (w : world) (u d : string) :
  extractURL E entry = Some u ->
  u <> "" ->
  truthy (prop (VObj o) "skipInline") = false ->
  cache_background w !! safeEncodeURI E u = None ->
  settled (fetchImage E (safeEncodeURI E u) (VObj o) w) = Ok d ->
  let first := inlineSingleBackgroundEntry E entry (VObj o) w in
  let later := inlineSingleBackgroundEntry E entry (VObj o) first.1.2 in
  first.1.1 = Ok (Some ("url(" +:+ dquote +:+ d +:+ dquote +:+ ")")) /\
  later.1.1 = Ok (Some ("url(" +:+ d +:+ ")")) /\
  later.2 = [EvCacheHas NsBackground (safeEncodeURI E u);
             EvCacheGet NsBackground (safeEncodeURI E u)] /\
  first.1.1 <> later.1.1.
Proof.
  intros Hu Hne Hskip Hmiss Hfetch first later.
  assert (Hpay : has_payload (extractURL E entry) = true).
  { rewrite Hu. simpl. destruct (String.eqb_spec u ""); [contradiction|done]. }
  assert (Hfirst :
    first = (Ok (Some ("url(" +:+ dquote +:+ d +:+ dquote +:+ ")")),
             set_cache_background (fun m => <[safeEncodeURI E u := d]> m)
               (at_settle (fetchImage E (safeEncodeURI E u) (VObj o) w)),
             [EvCacheHas NsBackground (safeEncodeURI E u)]
             ++ emitted (fetchImage E (safeEncodeURI E u) (VObj o) w)
             ++ [EvCacheSet NsBackground (safeEncodeURI E u) d])).
  { subst first. unfold inlineSingleBackgroundEntry.
    rewrite Hpay, Hu. cbn [or_empty_object default id].
    unfold bind at 1. unfold cache_has at 1. cbn [namespace_of].
    rewrite Hmiss. rewrite bool_decide_eq_false_2 by (by intros [? ?]).
    unfold bind, await, cache_set, member, ret. cbn [nullish].
    rewrite Hfetch, Hskip. cbn. reflexivity. }
  assert (Hlater :
    later = (Ok (Some ("url(" +:+ d +:+ ")")),
             first.1.2,
             [EvCacheHas NsBackground (safeEncodeURI E u);
              EvCacheGet NsBackground (safeEncodeURI E u)])).
  { subst later. rewrite Hfirst. cbn [fst snd].
    unfold inlineSingleBackgroundEntry.
    rewrite Hpay, Hu. cbn [or_empty_object default id].
    unfold bind, cache_has, cache_get, member, ret.
    cbn [namespace_of set_cache_background cache_background nullish].
    rewrite lookup_insert_eq.
    rewrite bool_decide_eq_true_2 by eauto.
    rewrite Hskip. cbn [set_cache_background cache_background].
    rewrite lookup_insert_eq. reflexivity. }
  rewrite Hlater, Hfirst. cbn [fst snd].
  do 3 (split; [reflexivity|]).
  intros Heq. apply (quoted_differs d). congruence.
Qed.

Lemma inlineSingleBackgroundEntry_hit_differs_from_miss_witness :
  (inlineSingleBackgroundEntry one_layer layer (VObj ∅) empty_world).1.1
  = Ok (Some ("url(" +:+ dquote +:+ png_A +:+ dquote +:+ ")")) /\
  (inlineSingleBackgroundEntry one_layer layer (VObj ∅)
     (inlineSingleBackgroundEntry one_layer layer (VObj ∅)
        empty_world).1.2).1.1
  = Ok (Some ("url(" +:+ png_A +:+ ")")).
Proof.
  destruct (inlineSingleBackgroundEntry_hit_differs_from_miss one_layer layer
              ∅ empty_world pic png_A) as (Hfirst & Hlater & _);
    try reflexivity; [discriminate|].
  split; [exact Hfirst | exact Hlater].
Defined.

(* ===================================================================== *)
(** ** Properties of the plugin registry and the hook runner *)
(* ===================================================================== *)

Lemma same_value_zero_str (s : string) :
  same_value_zero (VStr s) (VStr s) = true.
Proof. simpl. apply String.eqb_refl. Qed.

Lemma map_get_set (m : jsmap) (k v : value) :
  same_value_zero k k = true -> map_get (map_set m k v) k = Some v.
Proof.
  intros Hk. induction m as [|[k' v'] m IH]; simpl.
  - by rewrite Hk.
  - destruct (same_value_zero k' k) eqn:Hkk; simpl; rewrite Hkk; auto.
Qed.

Lemma use_registers (plugin : value) (w : world) :
  truthy (prop plugin "name") = true ->
  pluginRegistry (use plugin w).1.2
  = map_set (pluginRegistry w) (prop plugin "name") plugin.
Proof. intros Hn. unfold use. rewrite Hn. reflexivity. Qed.

(** The loop of [normalizePlugins] on one inline object whose name is
    registered: the merge is what it pushes. *)
Lemma normalizePlugins_merges (w : world) (debug : value)
    (entry : gmap string value) (base : value) (name : value) :
  entry !! "name" = Some name ->
  truthy name = true ->
  map_get (pluginRegistry w) name = Some base ->
  truthy base = true ->
  normalizePlugins [VObj entry] debug w
  = (Ok [merge_override base (VObj entry)], w, []).
Proof.
  intros Hname Ht Hget Hbase.
  unfold normalizePlugins, normalizeLoop, normalizeEntry. simpl.
  rewrite Hname. simpl. rewrite Ht. simpl. rewrite Hget. simpl.
  rewrite Hbase. reflexivity.
Qed.

(** C9. With [{name: x, options: {a: 1}}] registered, whatever the registry
    held before, the local override [{name: x, options: {b: 2}}] normalizes
    to the one plugin [{name: x, options: {a: 1, b: 2}}]. In general, for a
    registration and an inline object of the same non-empty name, the
    effective options are the override's fields laid over the base's: field
    by field the override's value where it has one, the base's otherwise. *)
Theorem normalizePlugins_override_merge (w : world) (debug : value) :
  (normalizePlugins [local_x] debug (use global_x w).1.2).1.1
  = Ok [VObj {[ "name" := VStr "x";
                "options" := VObj {[ "a" := VNum 1; "b" := VNum 2 ]} ]}]
  /\
  forall (c : ascii) (s : string)
         (base_fields entry_fields base_options entry_options
            : gmap string value),
    let name := VStr (String c s) in
    let base :=
      VObj (<["name" := name]> (<["options" := VObj base_options]> base_fields))
    in
    let entry :=
      <["name" := name]> (<["options" := VObj entry_options]> entry_fields)
    in
    exists effective : gmap string value,
      (normalizePlugins [VObj entry] debug (use base w).1.2).1.1
      = Ok [VObj effective] /\
      effective !! "options" = Some (VObj (entry_options ∪ base_options)) /\
      forall k : string,
        (entry_options ∪ base_options) !! k
        = match entry_options !! k with
          | Some v => Some v
          | None => base_options !! k
          end.
Proof.
  assert (Hgen :
    forall (c : ascii) (s : string)
           (base_fields entry_fields base_options entry_options
              : gmap string value),
      (normalizePlugins
         [VObj (<["name" := VStr (String c s)]>
                  (<["options" := VObj entry_options]> entry_fields))]
         debug
         (use (VObj (<["name" := VStr (String c s)]>
                       (<["options" := VObj base_options]> base_fields)))
              w).1.2).1.1
      = Ok [VObj (<["options" := VObj (entry_options ∪ base_options)]>
                    (<["name" := VStr (String c s)]>
                       (<["options" := VObj base_options]> base_fields)))]).
  { intros c s bf ef bo eo.
    set (base := VObj (<["name" := VStr (String c s)]>
                         (<["options" := VObj bo]> bf))).
    assert (Hbn : prop base "name" = VStr (String c s)).
    { unfold base, prop. by rewrite lookup_insert_eq. }
    erewrite normalizePlugins_merges with (base := base) (name := VStr (String c s)).
    - simpl. unfold merge_override. simpl.
      rewrite lookup_insert_ne by done. rewrite lookup_insert_eq. simpl.
      rewrite lookup_insert_ne by done. rewrite lookup_insert_eq. simpl.
      reflexivity.
    - apply lookup_insert_eq.
    - reflexivity.
    - assert (Htn : truthy (prop base "name") = true) by by rewrite Hbn.
      rewrite (use_registers base w Htn), Hbn. apply map_get_set, same_value_zero_str.
    - reflexivity. }
  split.
  - unfold local_x, global_x.
    change ({[ "name" := VStr "x"; "options" := VObj {[ "b" := VNum 2 ]} ]}
              : gmap string value)
      with (<["name" := VStr "x"]>
              (<["options" := VObj {[ "b" := VNum 2 ]}]> (∅ : gmap string value))).
    change ({[ "name" := VStr "x"; "options" := VObj {[ "a" := VNum 1 ]} ]}
              : gmap string value)
      with (<["name" := VStr "x"]>
              (<["options" := VObj {[ "a" := VNum 1 ]}]> (∅ : gmap string value))).
    rewrite (Hgen "x"%char "" ∅ ∅). reflexivity.
  - intros c s bf ef bo eo name base entry.
    eexists. split; [apply Hgen|]. split.
    + apply lookup_insert_eq.
    + intros k. rewrite lookup_union.
      destruct (eo !! k), (bo !! k); reflexivity.
Qed.



Section HookRunnerFacts.
Context (E : env).



End HookRunnerFacts.



(* ===================================================================== *)
(** ** Properties of the capture orchestrator *)
(* ===================================================================== *)

Section Avoidance.
Context (P : event -> bool).

Lemma avoids_ret {A : Type} (a : A) : avoids P (ret a).
Proof. intros w. constructor. Qed.

Lemma avoids_throw {A : Type} (e : error) : avoids P (@throw A e).
Proof. intros w. constructor. Qed.

Lemma avoids_foreign {A : Type} (f : world -> outcome A * world) :
  avoids P (foreign f).
Proof. intros w. unfold foreign. destruct (f w). constructor. Qed.

Lemma avoids_emit (e : event) : P e = false -> avoids P (emit e).
Proof. intros He w. repeat constructor. exact He. Qed.

Lemma avoids_bind {A B : Type} (m : Js A) (k : A -> Js B) :
  avoids P m -> (forall a, avoids P (k a)) -> avoids P (bind m k).
Proof.
  intros Hm Hk w. unfold bind. specialize (Hm w).
  destruct (m w) as [[[a|e] w1] ev1]; simpl in *; [|exact Hm].
  specialize (Hk a w1). destruct (k a w1) as [[r w2] ev2]. simpl in *.
  apply Forall_app. split; assumption.
Qed.

Lemma avoids_member (v : value) (k : string) : avoids P (member v k).
Proof.
  unfold member. destruct (nullish v); [apply avoids_throw | apply avoids_ret].
Qed.

Lemma avoids_idle {A : Type} (fn : Js A) (fast : value) :
  avoids P fn -> avoids P (idle fn fast).
Proof. exact (fun H => H). Qed.

Lemma avoids_stage_call {A : Type} (s : stage)
    (f : world -> outcome A * world) :
  P (EvStage s) = false -> avoids P (stage_call s f).
Proof.
  intros Hs. apply avoids_bind; [by apply avoids_emit|].
  intros _. apply avoids_foreign.
Qed.

Lemma avoids_cache_has (ns : cache_ns) (key : string) :
  P (EvCacheHas ns key) = false -> avoids P (cache_has ns key).
Proof. intros H w. repeat constructor. exact H. Qed.

Lemma avoids_cache_get (ns : cache_ns) (key : string) :
  P (EvCacheGet ns key) = false -> avoids P (cache_get ns key).
Proof. intros H w. repeat constructor. exact H. Qed.

Lemma avoids_cache_set (ns : cache_ns) (key v : string) :
  P (EvCacheSet ns key v) = false -> avoids P (cache_set ns key v).
Proof. intros H w. repeat constructor. exact H. Qed.

Lemma avoids_cache_reset : P EvCacheReset = false -> avoids P cache_reset.
Proof. intros H w. repeat constructor. exact H. Qed.

Lemma avoids_cleanupSandbox :
  P EvSandboxRemove = false -> avoids P cleanupSandbox.
Proof.
  intros H w. unfold cleanupSandbox.
  destruct (sandbox w) as [position|]; [|constructor].
  destruct (String.eqb position "absolute"); repeat constructor. exact H.
Qed.

Lemma avoids_on_throw_bind {A B : Type} (m : Js A) (k : A -> Js B) :
  avoids P m -> (forall a, avoids_on_throw P (k a)) ->
  avoids_on_throw P (bind m k).
Proof.
  intros Hm Hk w. unfold bind. specialize (Hm w).
  destruct (m w) as [[[a|e] w1] ev1]; simpl in *; [|exact Hm].
  specialize (Hk a w1). destruct (k a w1) as [[[b|e] w2] ev2]; simpl in *;
    [exact I|].
  apply Forall_app. split; assumption.
Qed.

Lemma avoids_on_throw_throw {A : Type} (e : error) :
  avoids_on_throw P (@throw A e).
Proof. intros w. constructor. Qed.

End Avoidance.

(** One step through the body of [captureDOM]: split a bind, or close a
    leaf whose events are read off. *)
Ltac avoid_step :=
  first
    [ apply avoids_ret
    | apply avoids_throw
    | apply avoids_member
    | apply avoids_idle
    | apply avoids_stage_call; reflexivity
    | apply avoids_cache_has; reflexivity
    | apply avoids_cache_get; reflexivity
    | apply avoids_cache_set; reflexivity
    | apply avoids_cache_reset; reflexivity
    | apply avoids_cleanupSandbox; reflexivity
    | apply avoids_bind; [|intros ?]
    | match goal with
      | |- avoids _ (if ?b then _ else _) => destruct b
      | |- avoids _ (match ?x with (_, _) => _ end) => destruct x
      end ].

Section CaptureFacts.
Context (E : env).

Lemma getBaseCSS_avoids (P : event -> bool) (clone : node) :
  (forall ns k, P (EvCacheHas ns k) = false) ->
  (forall ns k, P (EvCacheGet ns k) = false) ->
  (forall ns k v, P (EvCacheSet ns k v) = false) ->
  (forall s, P (EvStage s) = false) ->
  avoids P (getBaseCSS E clone).
Proof.
  intros Hh Hg Hs Hst. unfold getBaseCSS.
  apply avoids_bind; [by apply avoids_cache_has|]. intros [|].
  - apply avoids_bind; [by apply avoids_cache_get|]. intros ?.
    apply avoids_ret.
  - apply avoids_bind; [by apply avoids_idle, avoids_stage_call|].
    intros ?. apply avoids_bind; [by apply avoids_cache_set|].
    intros ?. apply avoids_ret.
Qed.

Lemma buildSVGDataURL_avoids (P : event -> bool) (original clone : node)
    (params : svg_params) :
  P (EvStage StBuildSVG) = false ->
  avoids P (buildSVGDataURL E original clone params).
Proof. intros H. by apply avoids_idle, avoids_stage_call. Qed.

(** No run of [captureDOM] starts or ends a hook. *)
Lemma captureDOM_avoids_hooks (element : option node) (options : value) :
  avoids is_hook_event (captureDOM E element options).
Proof.
  unfold captureDOM. destruct element as [element|]; [|apply avoids_throw].
  repeat first
    [ apply getBaseCSS_avoids; reflexivity
    | apply buildSVGDataURL_avoids; reflexivity
    | avoid_step ].
Qed.

(** Up to the document assembly included, no run of [captureDOM] removes
    the sandbox; the removal is the last step, so a run that throws has
    not removed it. *)
Lemma captureDOM_throw_no_removal (element : option node) (options : value) :
  avoids_on_throw is_removal (captureDOM E element options).
Proof.
  unfold captureDOM.
  destruct element as [element|]; [|apply avoids_on_throw_throw].
  repeat
    (lazymatch goal with
     | |- avoids_on_throw _ (bind cleanupSandbox _) => fail
     | |- avoids_on_throw _ (match ?x with (_, _) => _ end) => destruct x
     | |- avoids_on_throw _ (bind _ _) =>
         apply avoids_on_throw_bind;
         [ repeat first
             [ apply getBaseCSS_avoids; reflexivity
             | apply buildSVGDataURL_avoids; reflexivity
             | avoid_step ]
         | intros ? ]
     end).
  intros w. unfold bind, cleanupSandbox, ret.
  destruct (sandbox w) as [position|]; [|exact I].
  destruct (String.eqb position "absolute"); exact I.
Qed.

End CaptureFacts.

(** C1, on the code. No run of [captureDOM], in any environment and from
    any world, starts or ends a hook. In particular, with a plugin whose
    [beforeClone] hook is registered globally and listed in the options,
    the capture returns its document after the five collaborator calls
    alone, while [runHook] on the same context and world does start that
    hook. *)
Theorem captureDOM_invokes_no_hook :
  (forall (E : env) (element : option node) (options : value) (w : world),
      Forall (fun e => is_hook_event e = false)
             (captureDOM E element options w).2) /\
  (captureDOM stamping (Some 1%nat) (VObj plugin_options) plugin_world).1.1
  = Ok "data:image/svg+xml;charset=utf-8,doc" /\
  (captureDOM stamping (Some 1%nat) (VObj plugin_options) plugin_world).2
  = [EvCacheReset; EvStage StPrepareClone; EvStage StInlineImages;
     EvStage StInlineBackgroundImages; EvStage StBuildSVG] /\
  started (runHook stamping "beforeClone" (VObj plugin_options)
             plugin_world).2
  = [1%nat].
Proof.
  split; [|split; [|split]].
  - intros E element options w. apply captureDOM_avoids_hooks.
  - vm_compute. reflexivity.
  - vm_compute. reflexivity.
  - vm_compute. reflexivity.
Qed.

(** C2, on the code. A run of [captureDOM] that throws has not performed
    the removal of the sandbox: that step comes after the last stage that
    can throw and nothing runs it on the way out. In particular, when the
    cloning collaborator puts the sandbox into a document that had none and
    the document assembly throws, the error propagates and the sandbox is
    still in the document. *)
Theorem captureDOM_throw_leaves_sandbox :
  (forall (E : env) (element : option node) (options : value) (w : world),
      match (captureDOM E element options w).1.1 with
      | Throw _ =>
          Forall (fun e => is_removal e = false)
                 (captureDOM E element options w).2
      | Ok _ => True
      end) /\
  sandbox empty_world = None /\
  (captureDOM leaking (Some 1%nat) (VObj ∅) empty_world).1.1
  = Throw (Foreign 3) /\
  sandbox (captureDOM leaking (Some 1%nat) (VObj ∅) empty_world).1.2
  = Some "absolute".
Proof.
  split; [|split; [|split]].
  - intros E element options w. apply captureDOM_throw_no_removal.
  - reflexivity.
  - vm_compute. reflexivity.
  - vm_compute. reflexivity.
Qed.

Section ReturnFacts.
Context (Q : world -> Prop).

Lemma returns_in_bind {A B : Type} (m : Js A) (k : A -> Js B) :
  (forall a, returns_in Q (k a)) -> returns_in Q (bind m k).
Proof.
  intros Hk w b w' ev. unfold bind.
  destruct (m w) as [[[a|e] w1] ev1]; [|discriminate].
  destruct (k a w1) as [[r w2] ev2] eqn:Hka.
  intros [= -> -> <-]. eapply Hk, Hka.
Qed.

Lemma returns_in_throw {A : Type} (e : error) : returns_in Q (@throw A e).
Proof. intros w a w' ev. discriminate. Qed.

End ReturnFacts.

(** A run of [captureDOM] that returns leaves no absolutely positioned
    sandbox in the document. *)
Theorem captureDOM_return_removes_sandbox (E : env) (element : option node)
    (options : value) (w w' : world) (dataURL : string) (ev : list event) :
  captureDOM E element options w = (Ok dataURL, w', ev) ->
  sandbox w' <> Some "absolute".
Proof.
  revert w dataURL w' ev.
  change (returns_in (fun w' => sandbox w' <> Some "absolute")
            (captureDOM E element options)).
  unfold captureDOM.
  destruct element as [element|]; [|apply returns_in_throw].
  repeat
    (lazymatch goal with
     | |- returns_in _ (bind cleanupSandbox _) => fail
     | |- returns_in _ (match ?x with (_, _) => _ end) => destruct x
     | |- returns_in _ (bind _ _) => apply returns_in_bind; intros ?
     end).
  intros w d w' ev. unfold bind, cleanupSandbox, ret.
  destruct (sandbox w) as [position|] eqn:Hs.
  - destruct (String.eqb_spec position "absolute") as [->|Hne].
    + intros [= _ <- _]. discriminate.
    + intros [= _ <- _]. rewrite Hs. congruence.
  - intros [= _ <- _]. rewrite Hs. discriminate.
Qed.

Lemma captureDOM_return_removes_sandbox_witness :
  sandbox (captureDOM tidy (Some 1%nat) (VObj ∅) empty_world).1.2 = None.
Proof.
  pose proof (captureDOM_return_removes_sandbox tidy (Some 1%nat) (VObj ∅)
                empty_world
                (captureDOM tidy (Some 1%nat) (VObj ∅) empty_world).1.2
                "data:image/svg+xml;charset=utf-8,doc"
                (captureDOM tidy (Some 1%nat) (VObj ∅) empty_world).2
                eq_refl) as H.
  destruct (sandbox (captureDOM tidy (Some 1%nat) (VObj ∅) empty_world).1.2)
    as [position|] eqn:Hs; [|reflexivity].
  vm_compute in Hs. discriminate.
Defined.

(* ===================================================================== *)
(** ** Further properties of the plugin registry *)
(* ===================================================================== *)

Lemma same_value_zero_eq (a b : value) :
  same_value_zero a b = true -> a = b.
Proof.
  destruct a, b; simpl; try discriminate; intros H; try reflexivity.
  - by apply Bool.eqb_prop in H as ->.
  - by apply Z.eqb_eq in H as ->.
  - by apply String.eqb_eq in H as ->.
Qed.

Lemma map_get_set_ne (m : jsmap) (k k' v : value) :
  same_value_zero k k' = false ->
  map_get (map_set m k v) k' = map_get m k'.
Proof.
  intros Hne. induction m as [|[k0 v0] m IH]; simpl.
  - by rewrite Hne.
  - destruct (same_value_zero k0 k) eqn:Hk0; simpl.
    + apply same_value_zero_eq in Hk0 as ->. by rewrite Hne.
    + by rewrite IH.
Qed.

Lemma map_set_present (m : jsmap) (k v : value) :
  map_has m k = true ->
  length (map_set m k v) = length m /\
  map fst (map_set m k v) = map fst m.
Proof.
  unfold map_has. induction m as [|[k0 v0] m IH]; simpl; [discriminate|].
  destruct (same_value_zero k0 k) eqn:Hk0; simpl; [done|].
  intros H. destruct (IH H) as [-> ->]. done.
Qed.

Lemma map_set_absent (m : jsmap) (k v : value) :
  map_has m k = false -> map_set m k v = m ++ [(k, v)].
Proof.
  unfold map_has. induction m as [|[k0 v0] m IH]; simpl; [done|].
  destruct (same_value_zero k0 k) eqn:Hk0; simpl; [discriminate|].
  intros H. by rewrite IH.
Qed.

Lemma use_ok (plugin : value) (w : world) :
  truthy (prop plugin "name") = true ->
  (use plugin w).1.1 = Ok tt /\
  (use plugin w).1.2
  = set_pluginRegistry (fun r => map_set r (prop plugin "name") plugin) w.
Proof. intros Hn. unfold use. rewrite Hn. done. Qed.

Lemma use_events (plugin : value) (w : world) :
  truthy (prop plugin "name") = true ->
  (use plugin w).2
  = if map_has (pluginRegistry w) (prop plugin "name")
    then [EvConsole "warn"
            ("Overwriting existing plugin " +:+ dquote
             +:+ display (prop plugin "name") +:+ dquote)]
    else [].
Proof. intros Hn. unfold use. rewrite Hn. reflexivity. Qed.

Lemma nonempty_truthy (name : string) :
  name <> "" -> truthy (VStr name) = true.
Proof.
  intros Hne. simpl. by destruct (String.eqb_spec name "").
Qed.

(** A plugin registered under a non-empty string name is what the bare name
    resolves to afterwards: [normalizePlugins] on the list holding just that
    name yields just that plugin, prints nothing and leaves the world as
    [use] left it. *)
Theorem use_then_name_resolves (w : world) (debug : value)
    (plugin : gmap string value) (name : string) :
  plugin !! "name" = Some (VStr name) ->
  name <> "" ->
  normalizePlugins [VStr name] debug (use (VObj plugin) w).1.2
  = (Ok [VObj plugin], (use (VObj plugin) w).1.2, []).
Proof.
  intros Hname Hne.
  assert (Hp : prop (VObj plugin) "name" = VStr name).
  { unfold prop. by rewrite Hname. }
  assert (Ht : truthy (prop (VObj plugin) "name") = true).
  { rewrite Hp. by apply nonempty_truthy. }
  destruct (use_ok (VObj plugin) w Ht) as [_ Hw]. rewrite Hw, Hp.
  unfold normalizePlugins, normalizeLoop, normalizeEntry. simpl.
  rewrite map_get_set by apply same_value_zero_str. reflexivity.
Qed.

Lemma use_then_name_resolves_witness :
  normalizePlugins [VStr "P"] VUndefined (use plugin_P empty_world).1.2
  = (Ok [plugin_P], (use plugin_P empty_world).1.2, []).
Proof.
  apply (use_then_name_resolves empty_world VUndefined
           {[ "name" := VStr "P"; "beforeClone" := VFun 1 ]} "P").
  - reflexivity.
  - discriminate.
Defined.

(** Registering a plugin changes what one name resolves to and nothing
    else: every other string name is registered, or not, exactly as
    before, and the cache and the document are untouched. *)
Theorem use_other_names_untouched (w : world) (plugin : gmap string value)
    (name other : string) :
  plugin !! "name" = Some (VStr name) ->
  name <> "" ->
  other <> name ->
  registered (use (VObj plugin) w).1.2 other = registered w other /\
  cache_image (use (VObj plugin) w).1.2 = cache_image w /\
  cache_background (use (VObj plugin) w).1.2 = cache_background w /\
  cache_baseStyle (use (VObj plugin) w).1.2 = cache_baseStyle w /\
  sandbox (use (VObj plugin) w).1.2 = sandbox w.
Proof.
  intros Hname Hne Hother.
  assert (Hp : prop (VObj plugin) "name" = VStr name).
  { unfold prop. by rewrite Hname. }
  assert (Ht : truthy (prop (VObj plugin) "name") = true).
  { rewrite Hp. by apply nonempty_truthy. }
  destruct (use_ok (VObj plugin) w Ht) as [_ Hw]. rewrite Hw, Hp.
  unfold registered. simpl. split; [|done].
  apply map_get_set_ne. simpl.
  destruct (String.eqb_spec name other); [congruence | reflexivity].
Qed.

Lemma use_other_names_untouched_witness :
  registered (use plugin_A plugin_world).1.2 "P" = Some plugin_P.
Proof.
  destruct (use_other_names_untouched plugin_world
              {[ "name" := VStr "A"; "afterRender" := VFun 1 ]} "A" "P")
    as [H _]; [reflexivity | discriminate | discriminate |].
  exact (eq_trans H eq_refl).
Defined.

(** Registering under a name already taken replaces the plugin in place:
    the name then resolves to the new plugin, the list of global plugins
    keeps its length and its order of names, and the call prints exactly
    one warning. *)
Theorem use_overwrites_in_place (w : world) (plugin : gmap string value)
    (name : string) (old : value) :
  plugin !! "name" = Some (VStr name) ->
  name <> "" ->
  registered w name = Some old ->
  registered (use (VObj plugin) w).1.2 name = Some (VObj plugin) /\
  (exists globals globals' : list value,
      (getGlobalPlugins w).1.1 = Ok globals /\
      (getGlobalPlugins (use (VObj plugin) w).1.2).1.1 = Ok globals' /\
      length globals' = length globals) /\
  map fst (pluginRegistry (use (VObj plugin) w).1.2)
  = map fst (pluginRegistry w) /\
  (use (VObj plugin) w).2
  = [EvConsole "warn"
       ("Overwriting existing plugin " +:+ dquote +:+ name +:+ dquote)].
Proof.
  intros Hname Hne Hold.
  assert (Hp : prop (VObj plugin) "name" = VStr name).
  { unfold prop. by rewrite Hname. }
  assert (Ht : truthy (prop (VObj plugin) "name") = true).
  { rewrite Hp. by apply nonempty_truthy. }
  assert (Hhas : map_has (pluginRegistry w) (VStr name) = true).
  { unfold map_has. unfold registered in Hold. by rewrite Hold. }
  destruct (map_set_present (pluginRegistry w) (VStr name) (VObj plugin) Hhas)
    as [Hlen Hkeys].
  unfold getGlobalPlugins. cbn [fst snd].
  destruct (use_ok (VObj plugin) w Ht) as [_ Hw]. rewrite Hw, Hp.
  unfold registered. cbn [set_pluginRegistry pluginRegistry].
  split; [apply map_get_set, same_value_zero_str|].
  split.
  { eexists _, _. split; [reflexivity|]. split; [reflexivity|].
    by rewrite !length_map. }
  split; [exact Hkeys|].
  rewrite (use_events (VObj plugin) w Ht), Hp, Hhas. reflexivity.
Qed.

Lemma use_overwrites_in_place_witness :
  registered
    (use (VObj {[ "name" := VStr "P"; "afterExport" := VFun 5 ]})
         plugin_world).1.2 "P"
  = Some (VObj {[ "name" := VStr "P"; "afterExport" := VFun 5 ]}).
Proof.
  apply (use_overwrites_in_place plugin_world
           {[ "name" := VStr "P"; "afterExport" := VFun 5 ]} "P" plugin_P).
  - reflexivity.
  - discriminate.
  - reflexivity.
Defined.

(** Registering under a name not yet taken appends: the list of global
    plugins is the former list followed by the new plugin, and nothing is
    printed. *)
Theorem use_appends (w : world) (plugin : gmap string value) (name : string) :
  plugin !! "name" = Some (VStr name) ->
  name <> "" ->
  registered w name = None ->
  (getGlobalPlugins (use (VObj plugin) w).1.2).1.1
  = match (getGlobalPlugins w).1.1 with
    | Ok globals => Ok (globals ++ [VObj plugin])
    | Throw e => Throw e
    end /\
  (use (VObj plugin) w).2 = [].
Proof.
  intros Hname Hne Hnone.
  assert (Hp : prop (VObj plugin) "name" = VStr name).
  { unfold prop. by rewrite Hname. }
  assert (Ht : truthy (prop (VObj plugin) "name") = true).
  { rewrite Hp. by apply nonempty_truthy. }
  assert (Hhas : map_has (pluginRegistry w) (VStr name) = false).
  { unfold map_has. unfold registered in Hnone. by rewrite Hnone. }
  unfold getGlobalPlugins. cbn [fst snd].
  destruct (use_ok (VObj plugin) w Ht) as [_ Hw]. rewrite Hw, Hp.
  cbn [set_pluginRegistry pluginRegistry].
  rewrite (map_set_absent _ _ _ Hhas), map_app. split; [reflexivity|].
  rewrite (use_events (VObj plugin) w Ht), Hp, Hhas. reflexivity.
Qed.

Lemma use_appends_witness :
  (getGlobalPlugins (use plugin_A plugin_world).1.2).1.1
  = Ok [plugin_P; plugin_A].
Proof.
  apply (use_appends plugin_world
           {[ "name" := VStr "A"; "afterRender" := VFun 1 ]} "A").
  - reflexivity.
  - discriminate.
  - reflexivity.
Defined.

Lemma normalizeEntry_cases (registry : jsmap) (debug entry : value) :
  (exists plugin, normalizeEntry registry debug entry = ([plugin], [])) \/
  (truthy debug = true /\
   exists msg, normalizeEntry registry debug entry
               = ([], [EvConsole "warn" msg])) \/
  (truthy debug = false /\ normalizeEntry registry debug entry = ([], [])).
Proof.
  unfold normalizeEntry.
  destruct (String.eqb (typeof entry) "string").
  - destruct (truthy (default VUndefined (map_get registry entry)));
      [eauto|].
    destruct (truthy debug); eauto.
  - destruct (truthy (prop entry "name") && String.eqb (typeof entry) "object").
    + destruct (truthy (default VUndefined
                          (map_get registry (prop entry "name")))); eauto.
    + destruct (truthy debug); eauto.
Qed.


(** [normalizePlugins] never invents plugins and accounts for every entry:
    it pushes at most one plugin per entry; with [debug] set, the entries it
    skips are exactly as many as the warnings it prints; without [debug] it
    prints nothing. It does not throw and leaves the world as it is. *)
Theorem normalizePlugins_accounts (plugins : list value) (debug : value)
    (w : world) :
  exists (normalized : list value) (warnings : list event),
    normalizePlugins plugins debug w = (Ok normalized, w, warnings) /\
    length normalized <= length plugins /\
    (if truthy debug
     then length normalized + length warnings = length plugins
     else warnings = []).
Proof.
  unfold normalizePlugins.
  induction plugins as [|entry rest IH]; simpl.
  - exists [], []. destruct (truthy debug); done.
  - destruct IH as (n & ws & Heq & Hlen & Hacc).
    destruct (normalizeLoop (pluginRegistry w) debug rest) as [n' ws'].
    injection Heq as <- <-.
    destruct (normalizeEntry_cases (pluginRegistry w) debug entry)
      as [[p ->] | [[Hd [msg ->]] | [Hd ->]]]; simpl.
    + eexists _, _. split; [reflexivity|]. simpl. split; [lia|].
      destruct (truthy debug); [lia | done].
    + eexists _, _. split; [reflexivity|]. simpl. split; [lia|].
      rewrite Hd in *. lia.
    + eexists _, _. split; [reflexivity|]. simpl. split; [lia|].
      rewrite Hd in *. done.
Qed.

(** Once the registry is cleared no bare name resolves: [getGlobalPlugins]
    is empty and [normalizePlugins] keeps exactly the inline objects with a
    truthy name, in order and unchanged. *)
Theorem clearPlugins_forgets (w : world) (plugins : list value)
    (debug : value) :
  (getGlobalPlugins (clearPlugins w).1.2).1.1 = Ok [] /\
  (normalizePlugins plugins debug (clearPlugins w).1.2).1.1
  = Ok (List.filter is_inline_plugin plugins).
Proof.
  split; [reflexivity|].
  unfold normalizePlugins, clearPlugins.
  cbn [fst snd set_pluginRegistry pluginRegistry].
  assert (H : (normalizeLoop [] debug plugins).1
              = List.filter is_inline_plugin plugins).
  { induction plugins as [|entry rest IH]; [reflexivity|].
    simpl. destruct (normalizeLoop [] debug rest) as [n ws]. simpl in IH.
    unfold normalizeEntry, is_inline_plugin. simpl.
    destruct (String.eqb (typeof entry) "string"); simpl.
    - destruct (truthy debug); simpl; exact IH.
    - destruct (truthy (prop entry "name")
                && String.eqb (typeof entry) "object") eqn:Hin; simpl.
      + by rewrite IH.
      + destruct (truthy debug); simpl; exact IH. }
  destruct (normalizeLoop [] debug plugins) as [n ws]. simpl in *.
  by rewrite H.
Qed.

Section HookRunnerEdges.
Context (E : env).

(** [runHook] on a context object, once the iteration of its plugin list
    has given [entries]. *)
Lemma runHook_on_entries (hookName : string) (ctx : gmap string value)
    (entries : list value) (w : world) :
  iterate (if truthy (prop (VObj ctx) "plugins")
           then prop (VObj ctx) "plugins" else VArr []) w
  = (Ok entries, w, []) ->
  runHook E hookName (VObj ctx) w
  = let '(normalized, warnings) :=
      normalizeLoop (pluginRegistry w)
        (prop (prop (VObj ctx) "options") "debug") entries in
    let '(r, w', evs) := hookLoop E hookName normalized ctx w in
    (as_context r, w', warnings ++ evs).
Proof.
  intros Hit. unfold runHook, member, bind, ret, normalizePlugins.
  cbn [nullish]. rewrite Hit.
  destruct (normalizeLoop _ _ entries) as [normalized warnings].
  destruct (hookLoop E hookName normalized ctx w) as [[[c|e] w'] evs];
    cbn; rewrite ?app_nil_r; reflexivity.
Qed.



End HookRunnerEdges.

(** [runHook] runs the plugins the context lists and no others: on a
    context object whose [plugins] is missing or falsy it calls no hook,
    prints nothing and returns the context and the world as they are,
    whatever is registered globally. *)
Theorem runHook_without_plugins (E : env) (hookName : string)
    (ctx : gmap string value) (w : world) :
  truthy (prop (VObj ctx) "plugins") = false ->
  runHook E hookName (VObj ctx) w = (Ok (VObj ctx), w, []).
Proof.
  intros Hnone.
  rewrite (runHook_on_entries E hookName ctx [] w);
    [reflexivity | by rewrite Hnone].
Qed.

Lemma runHook_without_plugins_witness :
  runHook stamping "beforeClone" (VObj {[ "fast" := VBool true ]})
          plugin_world
  = (Ok (VObj {[ "fast" := VBool true ]}), plugin_world, []).
Proof.
  apply (runHook_without_plugins stamping "beforeClone"
           {[ "fast" := VBool true ]} plugin_world).
  reflexivity.
Defined.



(* ===================================================================== *)
(** ** What the image resolver writes and requests *)
(* ===================================================================== *)

Lemma differ_at_image_refl (src : string) (w : world) :
  differ_at_image src w w.
Proof. by repeat split. Qed.

Lemma differ_at_image_set (src d : string) (w : world) :
  differ_at_image src w (set_cache_image (fun m => <[src := d]> m) w).
Proof.
  repeat split. intros k Hk. simpl. by rewrite lookup_insert_ne.
Qed.

Section WriteFacts.
Context (E : env).

Lemma viaFallback_world (options : value) (src : string) (w : world) :
  (viaFallback E options src w).1.2
  = match (viaFallback E options src w).1.1 with
    | Ok d => set_cache_image (fun m => <[src := d]> m) w
    | Throw _ => w
    end.
Proof.
  unfold viaFallback, bind.
  pose proof (fetchWithFallback_world E options src w) as H.
  destruct (fetchWithFallback E options src w) as [[[d|e] w1] ev];
    simpl in *; by subst w1.
Qed.

Lemma handler_world (s : signal) (options : value) (src : string)
    (w : world) :
  (handler E s options src w).1.2
  = match (handler E s options src w).1.1 with
    | Ok d => set_cache_image (fun m => <[src := d]> m) w
    | Throw _ => w
    end.
Proof.
  pose proof (viaFallback_world options src w) as Hv.
  destruct s; unfold handler, onload, onerror, try_catch, bind, emit,
    throw, ret, cache_set; simpl.
  - destruct (rasterize E src); simpl; [reflexivity|].
    destruct (viaFallback E options src w) as [[r w1] ev]. exact Hv.
  - destruct (viaFallback E options src w) as [[r w1] ev]. exact Hv.
Qed.

Lemma fetchSVG_world (options : value) (src : string) (m : cors_mode)
    (w : world) :
  (fetchSVG E options src m w).1.2 = w \/
  exists d, (fetchSVG E options src m w).1.1 = Ok d /\
            (fetchSVG E options src m w).1.2
            = set_cache_image (fun c => <[src := d]> c) w.
Proof.
  unfold fetchSVG, try_catch, bind, emit, throw, ret, cache_set. simpl.
  pose proof (fetchWithFallback_world E options src w) as Hw.
  destruct (net_text E src _) as [svgText|e1]; simpl.
  - destruct (encodeURIComponent E svgText); simpl; [right; eauto|].
    destruct (fetchWithFallback E options src w) as [[r w1] ev]. by left.
  - destruct (fetchWithFallback E options src w) as [[r w1] ev]. by left.
Qed.

Lemma late_handler_world (s : signal) (options : value) (src : string)
    (w : world) :
  (try_catch (bind (handler E s options src) (fun _ => ret tt))
             (fun _ => ret tt) w).1.2
  = (handler E s options src w).1.2.
Proof.
  unfold try_catch, bind, ret.
  destruct (handler E s options src w) as [[[d|e] w1] ev]; reflexivity.
Qed.

End WriteFacts.

Lemma fetchImage_frame (E : env) (src : string) (options : value)
    (w : world) :
  differ_at_image src w (at_settle (fetchImage E src options w)) /\
  differ_at_image src w (quiescent (fetchImage E src options w)).
Proof.
  unfold fetchImage, quiescent.
  destruct (cache_image w !! src);
    [split; apply differ_at_image_refl|].
  destruct (isDataURI src);
    [split; apply differ_at_image_set|].
  destruct (isSVG src).
  - destruct (fetchSVG_world E options src (getCrossOriginMode E src) w)
      as [Hw | (d & _ & Hw)];
      destruct (fetchSVG E options src (getCrossOriginMode E src) w)
        as [[r w1] ev]; simpl in *; subst w1;
      split; first [apply differ_at_image_refl | apply differ_at_image_set].
  - unfold fetchRaster. destruct (image_signal E src) as [[s t]|];
      [|split; apply differ_at_image_refl].
    pose proof (handler_world E s options src w) as Hh.
    destruct (t <? timeout)%N.
    + destruct (handler E s options src w) as [[[d|e] w1] ev];
        simpl in *; subst w1;
        split; first [apply differ_at_image_refl | apply differ_at_image_set].
    + cbn [at_settle late]. split; [apply differ_at_image_refl|].
      rewrite late_handler_world, Hh.
      destruct ((handler E s options src w).1.1);
        first [apply differ_at_image_refl | apply differ_at_image_set].
Qed.

(** A resolution writes at most the entry of the image namespace under its
    own reference: when the promise settles, and also once every callback
    it left armed has run, the background and base-style namespaces, the
    plugin registry, the document and every other entry of the image
    namespace are as before. *)
Theorem fetchImage_writes_only_its_key (E : env) (src : string)
    (options : value) (w : world) :
  differ_at_image src w (at_settle (fetchImage E src options w)) /\
  differ_at_image src w (quiescent (fetchImage E src options w)).
Proof. exact (fetchImage_frame E src options w). Qed.

(** A reference that resolved, other than through the vector-image branch,
    is cached under itself with the value it resolved to, so the next
    resolution of it, under any options, returns that value from the cache
    without network or decoding work. *)
Theorem fetchImage_resolves_once (E : env) (src : string)
    (options options' : value) (w : world) (d : string) :
  isDataURI src = true \/ isSVG src = false ->
  settled (fetchImage E src options w) = Ok d ->
  cache_image (at_settle (fetchImage E src options w)) !! src = Some d /\
  fetchImage E src options' (at_settle (fetchImage E src options w))
  = Promise (Ok d) (at_settle (fetchImage E src options w))
            [EvCacheHas NsImage src; EvCacheGet NsImage src] (ret tt).
Proof.
  intros Hkind Hok.
  assert (Hc : cache_image (at_settle (fetchImage E src options w)) !! src
               = Some d);
    [|split; [exact Hc | by apply fetchImage_hit]].
  revert Hok. unfold fetchImage.
  destruct (cache_image w !! src) as [d0|] eqn:Hhit.
  { cbn. by intros [= <-]. }
  destruct (isDataURI src) eqn:Hdata.
  { cbn. intros [= <-]. apply lookup_insert_eq. }
  destruct Hkind as [? | Hsvg]; [discriminate|]. rewrite Hsvg.
  unfold fetchRaster. cbn [settled at_settle].
  destruct (image_signal E src) as [[s t]|]; [|discriminate].
  destruct (t <? timeout)%N; [|discriminate].
  pose proof (handler_world E s options src w) as Hh.
  destruct (handler E s options src w) as [[r w1] ev]. simpl in *.
  intros ->. subst w1. apply lookup_insert_eq.
Qed.

Lemma fetchImage_resolves_once_witness :
  settled (fetchImage one_layer pic VNull
             (at_settle (fetchImage one_layer pic (VObj ∅) empty_world)))
  = Ok png_A.
Proof.
  destruct (fetchImage_resolves_once one_layer pic (VObj ∅) VNull empty_world
              png_A) as [_ H].
  - right. reflexivity.
  - reflexivity.
  - rewrite H. reflexivity.
Defined.

(** The vector-image branch, when the text of the file is fetched and
    encoded: the promise resolves to the text wrapped as an embedded
    vector image, that value is cached under the reference, and the one
    request of the run is the text request. *)
Theorem fetchImage_svg_text (E : env) (src : string) (options : value)
    (w : world) (svgText enc : string) :
  cache_image w !! src = None ->
  isDataURI src = false ->
  isSVG src = true ->
  net_text E src (credentials_of (getCrossOriginMode E src)) = Ok svgText ->
  encodeURIComponent E svgText = Some enc ->
  settled (fetchImage E src options w)
  = Ok ("data:image/svg+xml;charset=utf-8," +:+ enc) /\
  cache_image (at_settle (fetchImage E src options w)) !! src
  = Some ("data:image/svg+xml;charset=utf-8," +:+ enc) /\
  List.filter is_io (all_events (fetchImage E src options w))
  = [EvFetch src (credentials_of (getCrossOriginMode E src)) AsText].
Proof.
  intros Hc Hd Hs Htext Henc.
  unfold fetchImage, all_events. rewrite Hc, Hd, Hs.
  unfold fetchSVG, try_catch, bind, emit, throw, ret, cache_set.
  rewrite Htext, Henc. cbn.
  split; [reflexivity|]. split; [apply lookup_insert_eq | reflexivity].
Qed.

(** The vector-image branch, when the text request fails and the fallback
    fetch succeeds: the promise resolves to the fetched value, but this path
    caches nothing, so the image namespace still has no entry for the
    reference. *)
Theorem fetchImage_svg_fallback_not_cached (E : env) (src : string)
    (options : value) (w : world) (e : error) (d : string) :
  cache_image w !! src = None ->
  isDataURI src = false ->
  isSVG src = true ->
  net_text E src (credentials_of (getCrossOriginMode E src)) = Throw e ->
  fetched E src = Some d ->
  settled (fetchImage E src options w) = Ok d /\
  at_settle (fetchImage E src options w) = w /\
  cache_image (quiescent (fetchImage E src options w)) !! src = None.
Proof.
  intros Hc Hd Hs Htext Hf.
  unfold fetchImage, quiescent. rewrite Hc, Hd, Hs.
  unfold fetchSVG, try_catch, bind, emit, throw, ret. rewrite Htext.
  pose proof (fallback_direct E options src d w Hf) as Hfb.
  destruct (fetchWithFallback E options src w) as [[r w1] ev].
  simpl in Hfb. injection Hfb as -> ->. cbn. done.
Qed.

Lemma fetchImage_svg_text_witness :
  settled (fetchImage svg_served logo (VObj ∅) empty_world)
  = Ok "data:image/svg+xml;charset=utf-8,<svg/>".
Proof.
  apply (fetchImage_svg_text svg_served logo (VObj ∅) empty_world
           "<svg/>" "<svg/>"); reflexivity.
Defined.

Lemma fetchImage_svg_fallback_not_cached_witness :
  settled (fetchImage svg_as_blob logo (VObj ∅) empty_world)
  = Ok "data:image/svg+xml;base64,PHN2Zy8+" /\
  at_settle (fetchImage svg_as_blob logo (VObj ∅) empty_world) = empty_world.
Proof.
  destruct (fetchImage_svg_fallback_not_cached svg_as_blob logo (VObj ∅)
              empty_world (Foreign 11) "data:image/svg+xml;base64,PHN2Zy8+")
    as (H1 & H2 & _); try reflexivity.
  split; [exact H1 | exact H2].
Defined.

Section FallbackFacts.
Context (E : env).

Lemma fetchBlob_result (url : string) (w : world) :
  fetchBlobAsDataURL E url w
  = (match fetched E url with
     | Some d => Ok d
     | None => (fetchBlobAsDataURL E url w).1.1
     end, w,
     [EvFetch url (credentials_of (getCrossOriginMode E url)) AsBlob]).
Proof.
  unfold fetched, fetchBlobAsDataURL, bind, emit. simpl.
  destruct (net_blob E url _) as [e| |[b|]]; try reflexivity.
  destruct (String.prefix "data:image/" b); reflexivity.
Qed.



End FallbackFacts.


(* ===================================================================== *)
(** ** Credentials of the requests *)
(* ===================================================================== *)

Lemma avoids_try_catch {A : Type} (P : event -> bool) (m : Js A)
    (h : error -> Js A) :
  avoids P m -> (forall e, avoids P (h e)) -> avoids P (try_catch m h).
Proof.
  intros Hm Hh w. unfold try_catch. specialize (Hm w).
  destruct (m w) as [[[a|e] w1] ev1]; simpl in *; [exact Hm|].
  specialize (Hh e w1). destruct (h e w1) as [[r w2] ev2]. simpl in *.
  apply Forall_app. split; assumption.
Qed.

Section CredentialFacts.
Context (E : env).

Lemma right_credentials (url : string) (k : body_kind) :
  wrong_credentials E
    (EvFetch url (credentials_of (getCrossOriginMode E url)) k) = false.
Proof. simpl. by destruct (getCrossOriginMode E url). Qed.

Lemma fetchBlob_credentials (url : string) :
  avoids (wrong_credentials E) (fetchBlobAsDataURL E url).
Proof.
  intros w. rewrite (fetchBlob_result E url w). cbn [snd].
  repeat constructor. apply right_credentials.
Qed.

Lemma fetchWithFallback_credentials (options : value) (url : string) :
  avoids (wrong_credentials E) (fetchWithFallback E options url).
Proof.
  unfold fetchWithFallback.
  apply avoids_try_catch; [apply fetchBlob_credentials|]. intros _.
  apply avoids_bind; [apply avoids_member|]. intros useProxy.
  destruct (truthy useProxy && _); [|apply avoids_throw].
  apply avoids_try_catch; [apply fetchBlob_credentials|].
  intros _. apply avoids_throw.
Qed.

Lemma viaFallback_credentials (options : value) (src : string) :
  avoids (wrong_credentials E) (viaFallback E options src).
Proof.
  unfold viaFallback.
  apply avoids_bind; [apply fetchWithFallback_credentials|]. intros d.
  apply avoids_bind; [by apply avoids_cache_set|]. intros _.
  apply avoids_ret.
Qed.

Lemma handler_credentials (s : signal) (options : value) (src : string) :
  avoids (wrong_credentials E) (handler E s options src).
Proof.
  destruct s; unfold handler, onload, onerror.
  - apply avoids_bind; [by apply avoids_emit|]. intros _.
    apply avoids_try_catch; [|intros _; apply viaFallback_credentials].
    apply avoids_bind; [by apply avoids_emit|]. intros _.
    destruct (rasterize E src); [|apply avoids_throw].
    apply avoids_bind; [by apply avoids_cache_set|]. intros _.
    apply avoids_ret.
  - apply avoids_bind; [by apply avoids_emit|]. intros _.
    apply avoids_bind; [by apply avoids_emit|]. intros _.
    apply viaFallback_credentials.
Qed.

Lemma fetchSVG_credentials (options : value) (src : string) :
  avoids (wrong_credentials E)
         (fetchSVG E options src (getCrossOriginMode E src)).
Proof.
  unfold fetchSVG.
  apply avoids_try_catch; [|intros _; apply fetchWithFallback_credentials].
  apply avoids_bind; [apply avoids_emit, right_credentials|]. intros _.
  destruct (net_text E src _); [|apply avoids_throw].
  destruct (encodeURIComponent E a); [|apply avoids_throw].
  apply avoids_bind; [by apply avoids_cache_set|]. intros _.
  apply avoids_ret.
Qed.

End CredentialFacts.

(** Every [fetch] request of a resolution, those of callbacks that run
    after the promise settled included, carries the credentials mode of its
    own address: [include] when the address is of the page's origin,
    [omit] when it is of another origin or does not parse. Credentials
    never go to another origin, the proxy included. *)
Theorem fetchImage_credentials_follow_origin (E : env) (src : string)
    (options : value) (w : world) :
  Forall (fun e => wrong_credentials E e = false)
         (all_events (fetchImage E src options w)).
Proof.
  unfold fetchImage, all_events.
  destruct (cache_image w !! src); [repeat constructor|].
  destruct (isDataURI src); [repeat constructor|].
  destruct (isSVG src).
  - pose proof (fetchSVG_credentials E options src w) as H.
    destruct (fetchSVG E options src (getCrossOriginMode E src) w)
      as [[r w1] ev]. cbn in *. rewrite app_nil_r. by constructor.
  - unfold fetchRaster.
    destruct (image_signal E src) as [[s t]|]; [|repeat constructor].
    destruct (t <? timeout)%N.
    + pose proof (handler_credentials E s options src w) as H.
      destruct (handler E s options src w) as [[r w1] ev]. cbn in *.
      rewrite app_nil_r. by repeat constructor.
    + cbn [emitted at_settle late].
      assert (H : avoids (wrong_credentials E)
                    (try_catch (bind (handler E s options src)
                                     (fun _ => ret tt))
                               (fun _ => ret tt))).
      { apply avoids_try_catch; [|intros _; apply avoids_ret].
        apply avoids_bind; [apply handler_credentials|].
        intros _. apply avoids_ret. }
      specialize (H w). apply Forall_app. split; [repeat constructor|].
      exact H.
Qed.

(* ===================================================================== *)
(** ** The tests on reference strings *)
(* ===================================================================== *)

Lemma lower_append (a b : string) : lower (a +:+ b) = lower a +:+ lower b.
Proof. induction a as [|c a IH]; simpl; [reflexivity | by rewrite IH]. Qed.

Lemma svg_match_append (a b : string) :
  svg_match b = true -> svg_match (a +:+ b) = true.
Proof.
  intros Hb. induction a as [|c a IH]; [exact Hb|].
  simpl. rewrite IH. apply orb_true_r.
Qed.

Lemma lower_ascii_line_break (c : ascii) :
  Ascii.eqb (lower_ascii c) "010"%char = Ascii.eqb c "010"%char /\
  Ascii.eqb (lower_ascii c) "013"%char = Ascii.eqb c "013"%char.
Proof. destruct c as [[] [] [] [] [] [] [] []]; split; reflexivity. Qed.

(** Lower-casing neither makes nor unmakes a byte of the two separators. *)
Lemma lower_ascii_separator (c x : ascii) :
  In x ["226"%char; "128"%char; "168"%char; "169"%char] ->
  x = lower_ascii c <-> x = c.
Proof.
  intros Hin.
  destruct c as [[] [] [] [] [] [] [] []]; vm_compute; try tauto;
    vm_compute in Hin;
    (split; intros ->;
     destruct Hin as [H|[H|[H|[H|[]]]]]; discriminate H).
Qed.

Lemma prefix_lower (sep : string) :
  Forall (fun x => In x ["226"%char; "128"%char; "168"%char; "169"%char])
         (list_ascii_of_string sep) ->
  forall s : string, String.prefix sep (lower s) = String.prefix sep s.
Proof.
  induction sep as [|a sep IH]; intros Hsep s; [by destruct s|].
  cbn [list_ascii_of_string] in Hsep. apply Forall_cons in Hsep as [Ha Hsep].
  destruct s as [|b s]; [reflexivity|].
  cbn [lower String.prefix].
  pose proof (lower_ascii_separator b a Ha) as Hiff.
  destruct (ascii_dec a (lower_ascii b)) as [Hl|Hl],
           (ascii_dec a b) as [Hb|Hb]; try tauto.
  by apply IH.
Qed.

Lemma no_line_break_lower (s : string) :
  no_line_break (lower s) = no_line_break s.
Proof.
  induction s as [|c s IH]; [reflexivity|].
  cbn [lower no_line_break].
  change (String (lower_ascii c) (lower s)) with (lower (String c s)).
  rewrite !prefix_lower by (repeat constructor; cbn; tauto).
  destruct (lower_ascii_line_break c) as [-> ->].
  by rewrite IH.
Qed.

(** The vector-image test accepts the extension in any mix of cases, at the
    end of the reference or followed by a query string free of line
    terminators (line feed, carriage return, U+2028, U+2029), after any
    prefix. *)
Theorem isSVG_extension (p ext q : string) :
  lower ext = ".svg" ->
  no_line_break q = true ->
  isSVG (p +:+ ext) = true /\ isSVG (p +:+ ext +:+ "?" +:+ q) = true.
Proof.
  intros Hext Hq. unfold isSVG. split.
  - rewrite lower_append, Hext. by apply svg_match_append.
  - rewrite !lower_append, Hext. apply svg_match_append.
    change (lower "?") with "?". simpl.
    change ("" +:+ lower q) with (lower q).
    by rewrite no_line_break_lower, Hq.
Qed.

Lemma isSVG_extension_witness :
  (isSVG ("https://cdn.example/Logo" +:+ ".SvG") = true /\
   isSVG ("https://cdn.example/Logo" +:+ ".SvG" +:+ "?" +:+ "v=2&x") = true) /\
  no_line_break ("v=2" +:+ line_separator) = false /\
  isSVG ("https://cdn.example/Logo" +:+ ".SvG" +:+ "?" +:+ "v=2"
         +:+ paragraph_separator) = false.
Proof.
  split.
  - apply (isSVG_extension "https://cdn.example/Logo" ".SvG" "v=2&x");
      reflexivity.
  - split; reflexivity.
Defined.

Lemma strip_trailing_slash_append (s : string) :
  strip_trailing_slash (s +:+ "/") = s.
Proof.
  induction s as [|c s IH]; [reflexivity|].
  change (String c s +:+ "/") with (String c (s +:+ "/")).
  cbn [strip_trailing_slash]. rewrite IH.
  destruct s; reflexivity.
Qed.

Lemma strip_trailing_slash_cases (s : string) :
  strip_trailing_slash s = s \/ s = strip_trailing_slash s +:+ "/".
Proof.
  induction s as [|c s IH]; [by left|].
  destruct s as [|c' s'] eqn:Hs.
  - cbn [strip_trailing_slash].
    destruct (Ascii.eqb_spec c "/"%char) as [->|]; [by right | by left].
  - rewrite <- Hs in *.
    assert (Hunf : strip_trailing_slash (String c s)
                   = String c (strip_trailing_slash s))
      by (rewrite Hs; reflexivity).
    rewrite Hunf. destruct IH as [-> | Heq]; [by left | right].
    change (String c (strip_trailing_slash s) +:+ "/")
      with (String c (strip_trailing_slash s +:+ "/")).
    by rewrite <- Heq.
Qed.

(** The proxy base loses exactly one trailing slash, if it has one, before
    the encoded address is appended: a base written with a final slash
    gives the address of the base without it, and two final slashes leave
    one. *)
Theorem proxied_url_trailing_slash (E : env) (proxyBase url : string) :
  proxied_url E (proxyBase +:+ "/") url = proxyBase +:+ safeEncodeURI E url /\
  (proxied_url E proxyBase url = proxyBase +:+ safeEncodeURI E url \/
   proxyBase
   = strip_trailing_slash proxyBase +:+ "/") /\
  String.length (strip_trailing_slash proxyBase) <= String.length proxyBase /\
  String.length proxyBase <= S (String.length (strip_trailing_slash proxyBase)).
Proof.
  unfold proxied_url. rewrite strip_trailing_slash_append.
  split; [reflexivity|].
  destruct (strip_trailing_slash_cases proxyBase) as [Heq | Heq].
  - rewrite Heq. split; [by left|]. lia.
  - split; [by right|].
    apply (f_equal String.length) in Heq.
    rewrite length_append in Heq. simpl in Heq. lia.
Qed.

(* ===================================================================== *)
(** ** Further properties of the background entry resolver *)
(* ===================================================================== *)

Lemma has_payload_some (u : string) :
  u <> "" -> has_payload (Some u) = true.
Proof. intros Hne. simpl. by destruct (String.eqb_spec u ""). Qed.

(** A hit of the background namespace costs two cache reads at most: for an
    entry whose encoded payload is cached, and options other than [null],
    the call does no network or decoding work, leaves the world as it is
    and returns the cached value wrapped without quotes, or nothing when
    [skipInline] is set. *)
Theorem inlineSingleBackgroundEntry_hit (E : env) (entry : string)
    (options : value) (w : world) (u cached : string) :
  extractURL E entry = Some u ->
  u <> "" ->
  options <> VNull ->
  cache_background w !! safeEncodeURI E u = Some cached ->
  (inlineSingleBackgroundEntry E entry options w).1
  = (Ok (if truthy (prop options "skipInline") then None
         else Some ("url(" +:+ cached +:+ ")")), w) /\
  Forall (fun e => is_io e = false)
         (inlineSingleBackgroundEntry E entry options w).2.
Proof.
  intros Hu Hne Hnull Hhit.
  unfold inlineSingleBackgroundEntry.
  rewrite Hu, (has_payload_some u Hne). cbn [default id].
  assert (Hskip : prop (or_empty_object options) "skipInline"
                  = prop options "skipInline") by by destruct options.
  assert (Hn : nullish (or_empty_object options) = false)
    by by destruct options.
  unfold bind, cache_has, cache_get, member, ret. cbn [namespace_of].
  rewrite Hhit, bool_decide_eq_true_2 by eauto.
  rewrite Hn, Hskip.
  destruct (truthy (prop options "skipInline")); cbn; rewrite ?Hhit;
    (split; [reflexivity | repeat constructor]).
Qed.

Lemma inlineSingleBackgroundEntry_hit_witness :
  (inlineSingleBackgroundEntry one_layer layer
     (VObj {[ "skipInline" := VBool true ]})
     (set_cache_background (fun m => <[pic := png_B]> m) empty_world)).1
  = (Ok None, set_cache_background (fun m => <[pic := png_B]> m) empty_world).
Proof.
  refine (proj1 (inlineSingleBackgroundEntry_hit one_layer layer
                   (VObj {[ "skipInline" := VBool true ]})
                   (set_cache_background (fun m => <[pic := png_B]> m)
                      empty_world)
                   pic png_B _ _ _ _));
    try reflexivity; discriminate.
Defined.

(** Cache-warm-only mode: with [skipInline] set, a miss whose image
    resolves returns nothing to the caller, yet stores the resolved value in
    the background namespace under the encoded payload. *)
Theorem inlineSingleBackgroundEntry_warms (E : env) (entry : string)
    (o : gmap string value) (w : world) (u d : string) :
  extractURL E entry = Some u ->
  u <> "" ->
  truthy (prop (VObj o) "skipInline") = true ->
  cache_background w !! safeEncodeURI E u = None ->
  settled (fetchImage E (safeEncodeURI E u) (VObj o) w) = Ok d ->
  (inlineSingleBackgroundEntry E entry (VObj o) w).1.1 = Ok None /\
  cache_background (inlineSingleBackgroundEntry E entry (VObj o) w).1.2
    !! safeEncodeURI E u = Some d.
Proof.
  intros Hu Hne Hskip Hmiss Hfetch.
  assert (Hcall :
    inlineSingleBackgroundEntry E entry (VObj o) w
    = (Ok None,
       set_cache_background (fun m => <[safeEncodeURI E u := d]> m)
         (at_settle (fetchImage E (safeEncodeURI E u) (VObj o) w)),
       [EvCacheHas NsBackground (safeEncodeURI E u)]
       ++ emitted (fetchImage E (safeEncodeURI E u) (VObj o) w)
       ++ [EvCacheSet NsBackground (safeEncodeURI E u) d])).
  { unfold inlineSingleBackgroundEntry.
    rewrite Hu, (has_payload_some u Hne). cbn [or_empty_object default id].
    unfold bind at 1. unfold cache_has at 1. cbn [namespace_of].
    rewrite Hmiss. rewrite bool_decide_eq_false_2 by (by intros [? ?]).
    unfold bind, await, cache_set, member, ret. cbn [nullish].
    rewrite Hfetch, Hskip. cbn. reflexivity. }
  rewrite Hcall. cbn. split; [reflexivity | apply lookup_insert_eq].
Qed.

Lemma inlineSingleBackgroundEntry_warms_witness :
  (inlineSingleBackgroundEntry one_layer layer
     (VObj {[ "skipInline" := VBool true ]}) empty_world).1.1 = Ok None /\
  cache_background
    (inlineSingleBackgroundEntry one_layer layer
       (VObj {[ "skipInline" := VBool true ]}) empty_world).1.2 !! pic
  = Some png_A.
Proof.
  apply (inlineSingleBackgroundEntry_warms one_layer layer
           {[ "skipInline" := VBool true ]} empty_world pic png_A);
    try reflexivity.
  discriminate.
Defined.

(** A failed resolution is not cached as a background either: when the
    image of a missed entry fails to resolve, the call throws that very
    error and the background namespace is as before. *)
Theorem inlineSingleBackgroundEntry_failure (E : env) (entry : string)
    (options : value) (w : world) (u : string) (e : error) :
  extractURL E entry = Some u ->
  u <> "" ->
  cache_background w !! safeEncodeURI E u = None ->
  settled (fetchImage E (safeEncodeURI E u) (or_empty_object options) w)
  = Throw e ->
  (inlineSingleBackgroundEntry E entry options w).1.1 = Throw e /\
  cache_background (inlineSingleBackgroundEntry E entry options w).1.2
  = cache_background w.
Proof.
  intros Hu Hne Hmiss Hfetch.
  destruct (fetchImage_frame E (safeEncodeURI E u) (or_empty_object options) w)
    as [(Hbg & _) _].
  assert (Hcall :
    (inlineSingleBackgroundEntry E entry options w).1
    = (Throw e,
       at_settle (fetchImage E (safeEncodeURI E u) (or_empty_object options)
                    w))).
  { unfold inlineSingleBackgroundEntry.
    rewrite Hu, (has_payload_some u Hne). cbn [default id].
    unfold bind at 1. unfold cache_has at 1. cbn [namespace_of].
    rewrite Hmiss. rewrite bool_decide_eq_false_2 by (by intros [? ?]).
    unfold bind, await. rewrite Hfetch. reflexivity. }
  rewrite Hcall. split; [reflexivity | exact Hbg].
Qed.

Lemma inlineSingleBackgroundEntry_failure_witness :
  (inlineSingleBackgroundEntry
     (with_extractURL (fun _ => Some pic) quiet) layer (VObj ∅)
     empty_world).1.1
  = Throw (Error msg_timed_out).
Proof.
  apply (inlineSingleBackgroundEntry_failure
           (with_extractURL (fun _ => Some pic) quiet) layer (VObj ∅)
           empty_world pic (Error msg_timed_out)); try reflexivity.
  discriminate.
Defined.

(* ===================================================================== *)
(** ** The key of the base-style cache *)
(* ===================================================================== *)

Lemma ascii_compare_lt_trans (a b c : ascii) :
  Ascii.compare a b = Lt -> Ascii.compare b c = Lt -> Ascii.compare a c = Lt.
Proof.
  unfold Ascii.compare. rewrite !N.compare_lt_iff. lia.
Qed.

Lemma string_compare_lt_trans (a b c : string) :
  String.compare a b = Lt -> String.compare b c = Lt ->
  String.compare a c = Lt.
Proof.
  revert b c. induction a as [|x a IH]; intros [|y b] [|z c]; simpl;
    try discriminate; try reflexivity.
  destruct (Ascii.compare x y) eqn:Hxy; try discriminate;
    destruct (Ascii.compare y z) eqn:Hyz; try discriminate; intros Hab Hbc.
  - apply Ascii.compare_eq_iff in Hxy, Hyz. subst.
    assert (Ascii.compare z z = Eq) as ->
      by (unfold Ascii.compare; apply N.compare_refl).
    eauto.
  - apply Ascii.compare_eq_iff in Hxy. subst. by rewrite Hyz.
  - apply Ascii.compare_eq_iff in Hyz. subst. by rewrite Hxy.
  - by rewrite (ascii_compare_lt_trans x y z Hxy Hyz).
Qed.

#[local] Instance string_le_trans : Transitive string_le.
Proof.
  intros a b c Hab Hbc. unfold string_le in *.
  destruct (String.compare a b) eqn:Cab.
  - apply String.compare_eq_iff in Cab. by subst.
  - destruct (String.compare b c) eqn:Cbc.
    + apply String.compare_eq_iff in Cbc. by subst.
    + unfold String.leb.
      by rewrite (string_compare_lt_trans a b c Cab Cbc).
    + unfold String.leb in Hbc. by rewrite Cbc in Hbc.
  - unfold String.leb in Hab. by rewrite Cab in Hab.
Qed.

#[local] Instance string_le_antisym : AntiSymm (=) string_le.
Proof. intros a b. apply String.leb_antisym. Qed.

Lemma insert_sorted_perm (x : string) (l : list string) :
  insert_sorted x l ≡ₚ x :: l.
Proof.
  induction l as [|y l IH]; simpl; [done|].
  destruct (String.leb x y); [done|].
  rewrite IH. apply Permutation_swap.
Qed.

Lemma insert_sorted_sorted (x : string) (l : list string) :
  Sorted string_le l -> Sorted string_le (insert_sorted x l).
Proof.
  induction l as [|y l IH]; simpl; intros Hs.
  - repeat constructor.
  - destruct (String.leb x y) eqn:Hxy.
    + constructor; [exact Hs | by constructor].
    + apply Sorted_inv in Hs as [Hs Hhd].
      assert (Hyx : string_le y x).
      { destruct (String.leb_total x y) as [H|H]; [congruence | exact H]. }
      constructor; [by apply IH|].
      destruct l as [|z l]; simpl; [by constructor|].
      destruct (String.leb x z); constructor; [exact Hyx|].
      by apply HdRel_inv in Hhd.
Qed.

Lemma sort_strings_perm (l : list string) : sort_strings l ≡ₚ l.
Proof.
  induction l as [|x l IH]; simpl; [done|].
  unfold sort_strings in *. simpl. by rewrite insert_sorted_perm, IH.
Qed.

Lemma sort_strings_sorted (l : list string) :
  Sorted string_le (sort_strings l).
Proof.
  induction l as [|x l IH]; simpl; [constructor|].
  by apply insert_sorted_sorted.
Qed.

Lemma sort_strings_unique (l1 l2 : list string) :
  l1 ≡ₚ l2 -> sort_strings l1 = sort_strings l2.
Proof.
  intros Hp. apply (Sorted_unique string_le);
    [apply sort_strings_sorted | apply sort_strings_sorted|].
  by rewrite !sort_strings_perm.
Qed.

(** The base styles generated for one clone are reused for every clone with
    the same tags, in whatever order they are collected: after a call that
    missed the base-style namespace and generated [css], the call for such
    a clone finds it there, returns the same [css] and does not call the
    generator. *)
Theorem getBaseCSS_reused_across_orders (E : env) (clone clone' : node)
    (w w1 : world) (css : string) :
  collectUsedTagNames E clone' ≡ₚ collectUsedTagNames E clone ->
  cache_baseStyle w
    !! join_comma (sort_strings (collectUsedTagNames E clone)) = None ->
  generateDedupedBaseCSS E (sort_strings (collectUsedTagNames E clone)) w
  = (Ok css, w1) ->
  (getBaseCSS E clone w).1.1 = Ok (VStr css) /\
  stages (getBaseCSS E clone w).2 = [StGenerateBaseCSS] /\
  (getBaseCSS E clone' (getBaseCSS E clone w).1.2).1
  = (Ok (VStr css), (getBaseCSS E clone w).1.2) /\
  stages (getBaseCSS E clone' (getBaseCSS E clone w).1.2).2 = [].
Proof.
  intros Hperm Hmiss Hgen.
  set (key := join_comma (sort_strings (collectUsedTagNames E clone))) in *.
  assert (Hfirst :
    getBaseCSS E clone w
    = (Ok (VStr css), set_cache_baseStyle (fun m => <[key := css]> m) w1,
       [EvCacheHas NsBaseStyle key; EvStage StGenerateBaseCSS;
        EvCacheSet NsBaseStyle key css])).
  { unfold getBaseCSS. fold key.
    unfold bind at 1. unfold cache_has at 1. cbn [namespace_of].
    rewrite Hmiss, bool_decide_eq_false_2 by (by intros [? ?]).
    unfold idle, stage_call, bind, emit, foreign, cache_set, ret.
    rewrite Hgen. reflexivity. }
  assert (Hsecond :
    getBaseCSS E clone' (set_cache_baseStyle (fun m => <[key := css]> m) w1)
    = (Ok (VStr css), set_cache_baseStyle (fun m => <[key := css]> m) w1,
       [EvCacheHas NsBaseStyle key; EvCacheGet NsBaseStyle key])).
  { unfold getBaseCSS. rewrite (sort_strings_unique _ _ Hperm). fold key.
    unfold bind, cache_has, cache_get, ret.
    cbn [namespace_of set_cache_baseStyle cache_baseStyle].
    rewrite lookup_insert_eq, bool_decide_eq_true_2 by eauto.
    cbn [set_cache_baseStyle cache_baseStyle].
    rewrite lookup_insert_eq. reflexivity. }
  rewrite Hfirst. cbn [fst snd]. rewrite Hsecond. done.
Qed.

Lemma getBaseCSS_reused_across_orders_witness :
  (getBaseCSS tagged 2%nat (getBaseCSS tagged 1%nat empty_world).1.2).1.1
  = Ok (VStr "div,p,span{}").
Proof.
  refine (f_equal fst
            (proj1 (proj2 (proj2
               (getBaseCSS_reused_across_orders tagged 1%nat 2%nat
                  empty_world empty_world "div,p,span{}" _ _ _))))).
  - apply (Permutation_cons_append ["span"; "div"] "p").
  - reflexivity.
  - reflexivity.
Defined.

(* ===================================================================== *)
(** ** The order of the capture pipeline *)
(* ===================================================================== *)

Ltac solve_sublist :=
  match goal with
  | |- ?l `sublist_of` _ =>
      let l' := eval vm_compute in l in
      change l with l'
  end;
  repeat first [ apply sublist_nil | apply sublist_skip | apply sublist_cons ].

(** Whatever the collaborators do, [captureDOM] calls them in the one
    order of its body, each at most once: the stages of a run are a
    subsequence of the pipeline. The fonts stage is run only when
    [embedFonts] is set and the base-style generator only when [compress]
    is; a run that returns has gone through cloning, image inlining,
    background inlining and document assembly, in that order, with the
    fonts stage among its stages exactly when [embedFonts] is set. A
    missing element stops the call before anything else: no stage is run
    and the cache is not reset. *)
Theorem captureDOM_stage_order (E : env) (element : option node)
    (options : value) (w : world) :
  let run := captureDOM E element options w in
  let options' := or_empty_object options in
  stages run.2 `sublist_of` pipeline /\
  (In StEmbedCustomFonts (stages run.2) ->
   truthy (prop options' "embedFonts") = true) /\
  (In StGenerateBaseCSS (stages run.2) ->
   truthy (prop options' "compress") = true) /\
  (forall dataURL : string,
      run.1.1 = Ok dataURL ->
      List.filter unconditional (stages run.2)
      = [StPrepareClone; StInlineImages; StInlineBackgroundImages;
         StBuildSVG] /\
      (truthy (prop options' "embedFonts") = true ->
       In StEmbedCustomFonts (stages run.2))) /\
  (element = None ->
   run = (Throw (Error "Element cannot be null or undefined"), w, [])).
Proof.
  intros run options'. subst run. unfold captureDOM. fold options'.
  destruct element as [element|].
  2: { cbn. repeat split; try (intros []); try discriminate.
       unfold pipeline. solve_sublist. }
  unfold getBaseCSS, buildSVGDataURL, cleanupSandbox, stage_call, idle,
    member, cache_reset, cache_has, cache_get, cache_set, bind, emit,
    foreign, ret, throw.
  destruct (nullish options') eqn:Hnull.
  - destruct (prepareClone E element options' _) as [[[clone css]|e] w1];
      cbn; (repeat split; try (intros [H|H]; try discriminate; destruct H);
            try discriminate; unfold pipeline; solve_sublist).
  - repeat
      (match goal with
       | |- context [prepareClone E ?a ?b ?c] =>
           destruct (prepareClone E a b c) as [[[? ?]|?] ?]
       | |- context [inlineImages E ?a ?b ?c] =>
           destruct (inlineImages E a b c) as [[[]|?] ?]
       | |- context [inlineBackgroundImages E ?a ?b ?c ?d] =>
           destruct (inlineBackgroundImages E a b c d) as [[[]|?] ?]
       | |- context [truthy (prop options' "embedFonts")] =>
           destruct (truthy (prop options' "embedFonts")) eqn:?
       | |- context [embedCustomFonts E ?a] =>
           destruct (embedCustomFonts E a) as [[?|?] ?]
       | |- context [truthy (prop options' "compress")] =>
           destruct (truthy (prop options' "compress")) eqn:?
       | |- context [bool_decide ?P] => destruct (bool_decide P)
       | |- context [generateDedupedBaseCSS E ?a ?b] =>
           destruct (generateDedupedBaseCSS E a b) as [[?|?] ?]
       | |- context [svgDocument E ?a ?b ?c ?d] =>
           destruct (svgDocument E a b c d) as [[?|?] ?]
       | |- context [sandbox ?a] => destruct (sandbox a) as [?|]
       | |- context [String.eqb ?p "absolute"] =>
           destruct (String.eqb p "absolute")
       end; cbn [fst snd]).
    all: cbn.
    all: repeat split;
      try (intros; discriminate);
      try (intros; reflexivity);
      try (intros H; repeat (destruct H as [H|H]; try discriminate);
           first [destruct H | done]);
      try (intros; simpl; tauto);
      try (unfold pipeline; solve_sublist).
Qed.

(* ===================================================================== *)
(** ** Properties of [createBackground] *)
(* ===================================================================== *)

Lemma canvas_size_painted (baseCanvas : canvas) (style : value)
    (w h : N) :
  canvas_size (Canvas w h [SetFillStyle style; FillRect 0 0 w h;
                           DrawImage baseCanvas 0 0])
  = S (canvas_size baseCanvas + 0).
Proof. reflexivity. Qed.

(** The canvas [createBackground] returns always has the dimensions of the
    base canvas. It is the base canvas itself exactly when no colour is given
    or one of the dimensions is zero. Given a colour and two positive
    dimensions it is a fresh canvas of the same dimensions on which exactly
    three things happened, in this order: the fill style was set to the
    colour, the whole area was filled, and the base canvas was drawn at the
    origin; so the base is laid over the colour. *)
Theorem createBackground_keeps_dimensions (baseCanvas : canvas)
    (backgroundColor : value) :
  canvas_width (createBackground baseCanvas backgroundColor)
  = canvas_width baseCanvas /\
  canvas_height (createBackground baseCanvas backgroundColor)
  = canvas_height baseCanvas /\
  (createBackground baseCanvas backgroundColor = baseCanvas <->
   truthy backgroundColor = false \/
   canvas_width baseCanvas = 0%N \/
   canvas_height baseCanvas = 0%N) /\
  (truthy backgroundColor = true ->
   canvas_width baseCanvas <> 0%N ->
   canvas_height baseCanvas <> 0%N ->
   createBackground baseCanvas backgroundColor
   = Canvas (canvas_width baseCanvas) (canvas_height baseCanvas)
       [SetFillStyle backgroundColor;
        FillRect 0 0 (canvas_width baseCanvas) (canvas_height baseCanvas);
        DrawImage baseCanvas 0 0]).
Proof.
  unfold createBackground.
  destruct (truthy backgroundColor); cbn [negb orb].
  2: { repeat split; auto; discriminate. }
  destruct (N.eqb_spec (canvas_width baseCanvas) 0) as [Hw|Hw]; cbn [orb].
  { repeat split; auto. intros _ Hne. by destruct Hne. }
  destruct (N.eqb_spec (canvas_height baseCanvas) 0) as [Hh|Hh].
  { repeat split; auto. intros _ _ Hne. by destruct Hne. }
  split; [reflexivity|]. split; [reflexivity|]. split; [|reflexivity].
  split.
  - intros Heq. apply (f_equal canvas_size) in Heq.
    rewrite canvas_size_painted in Heq. lia.
  - intros [Hc|[Hc|Hc]]; [discriminate | by destruct Hw | by destruct Hh].
Qed.

Lemma createBackground_keeps_dimensions_witness :
  createBackground (Canvas 2 3 []) (VStr "#fff")
  = Canvas 2 3 [SetFillStyle (VStr "#fff"); FillRect 0 0 2 3;
                DrawImage (Canvas 2 3 []) 0 0] /\
  createBackground (Canvas 2 3 []) (VStr "#fff") <> Canvas 2 3 [] /\
  createBackground (Canvas 2 0 []) (VStr "#fff") = Canvas 2 0 [] /\
  createBackground (Canvas 2 3 []) (VStr "") = Canvas 2 3 [].
Proof.
  destruct (createBackground_keeps_dimensions (Canvas 2 3 []) (VStr "#fff"))
    as (_ & _ & Hsame & Hpaint).
  split; [apply Hpaint; [reflexivity | discriminate | discriminate]|].
  split.
  - intros Heq. apply Hsame in Heq.
    destruct Heq as [Heq|[Heq|Heq]]; discriminate Heq.
  - split; reflexivity.
Defined.
